(** * Agentic RAG chatbot: retrieval pipeline and coordination protocol

    Shallow embedding of [ingestion_agent.py], [retrieval_agent.py],
    [coordinator_agent.py], [llm_response_agent.py] and [mcp.py].

    Python values are modelled as follows:
    - [str] is a sequence of Unicode code points ([pystr]);
    - a raised exception is the [Raise] case of [result];
    - module-level mutable state (the singleton [_default_agent], the
      console and the logging sink) is an explicit [World] threaded through
      a state-and-exception monad;
    - the libraries the code calls (the sentence-transformer model, float32
      arithmetic, the file parsers, the HTTP backend, the regex engine) are
      Section variables. *)

From Stdlib Require Import ZArith NArith List Ascii String Lia Bool.
From Stdlib Require Floats.
From stdpp Require Import base list sorting gmap strings.

Local Open Scope Z_scope.
#[local] Set Warnings "-register-all".
#[local] Set Warnings "-deprecated".


(** ** Python strings *)

Definition codepoint := N.
Definition pystr := list codepoint.

(** An ASCII literal as a Python string. *)
Definition py (s : string) : pystr :=
  map N_of_ascii (list_ascii_of_string s).
Arguments py : simpl never.

(** [str.isspace] on one character: the code points CPython classifies as
    whitespace. *)
Definition isspace (c : codepoint) : bool :=
  ((9 <=? c) && (c <=? 13) || (28 <=? c) && (c <=? 32)
   || (c =? 133) || (c =? 160) || (c =? 5760)
   || (8192 <=? c) && (c <=? 8202)
   || (c =? 8232) || (c =? 8233) || (c =? 8239) || (c =? 8287)
   || (c =? 12288))%N.

Fixpoint lstrip (s : pystr) : pystr :=
  match s with
  | c :: s' => if isspace c then lstrip s' else s
  | [] => []
  end.

Definition rstrip (s : pystr) : pystr := rev (lstrip (rev s)).

(** [text.strip()] *)
Definition strip (s : pystr) : pystr := rstrip (lstrip s).

(** ** Exceptions and results *)

Inductive exn : Type :=
| ValueError          (* range() arg 3 must not be zero *)
| IndexError          (* list index out of range *)
| DimensionMismatch.  (* the vector index rejects a vector whose width is not d *)

Inductive result (A : Type) : Type :=
| Ok (a : A)
| Raise (e : exn).
Arguments Ok {A} a.
Arguments Raise {A} e.

(** ** Python sequence primitives *)

(** [range(i, stop, step)], unfolded at most [fuel] times. *)
Fixpoint range_from (fuel : nat) (i stop step : Z) : list Z :=
  match fuel with
  | O => []
  | S fuel' =>
      if (if 0 <? step then i <? stop else stop <? i)
      then i :: range_from fuel' (i + step) stop step
      else []
  end.

Definition py_range (start stop step : Z) : result (list Z) :=
  if step =? 0 then Raise ValueError
  else Ok (range_from (Z.to_nat (Z.abs (stop - start))) start stop step).

(** A slice bound brought inside [0, len]. *)
Definition clamp_index (len i : Z) : Z :=
  if i <? 0 then Z.max 0 (i + len) else Z.min i len.

(** [l[i:j]] *)
Definition slice {A : Type} (l : list A) (i j : Z) : list A :=
  let len := Z.of_nat (length l) in
  let lo := clamp_index len i in
  let hi := clamp_index len j in
  take (Z.to_nat (hi - lo)) (drop (Z.to_nat lo) l).

(** ** Chunker ([ingestion_agent.py]) *)

Definition CHUNK_SIZE : Z := 800.

Definition _chunk_text (text : pystr) (size : Z) : result (list pystr) :=
  let text := strip text in
  match text with
  | [] => Ok []
  | _ =>
      match py_range 0 (Z.of_nat (length text)) size with
      | Raise e => Raise e
      | Ok idxs => Ok (map (fun i => slice text i (i + size)) idxs)
      end
  end.

(** Ceiling of [a / b] for positive [b]. *)
Definition ceil_div (a b : Z) : Z := (a + b - 1) / b.

(** ** Values exchanged with the libraries

    [json F] is what [resp.json()] can return; [F] is the float type. *)

Inductive json (F : Type) : Type :=
| JNull
| JBool (b : bool)
| JInt (z : Z)
| JFloat (x : F)
| JStr (s : pystr)
| JArr (items : list (json F))
| JObj (fields : list (pystr * json F)).
Arguments JNull {F}.
Arguments JBool {F} b.
Arguments JInt {F} z.
Arguments JFloat {F} x.
Arguments JStr {F} s.
Arguments JArr {F} items.
Arguments JObj {F} fields.

(** Outcome of [requests.post(...)], [raise_for_status()] and [resp.json()]
    taken together: any failure (connection error, timeout after 30 s, HTTP
    error status, undecodable body) is an exception carrying a message. *)
Inductive http_result (F : Type) : Type :=
| HttpFailed (msg : pystr)
| HttpJson (data : json F).
Arguments HttpFailed {F} msg.
Arguments HttpJson {F} data.

(** ** External collaborators

    Everything the repository imports from elsewhere. *)
Class Externals : Type := {
  (* numpy / faiss float32 arithmetic *)
  F : Type;
  fzero : F;
  fone : F;
  fadd : F -> F -> F;
  fmul : F -> F -> F;
  fdiv : F -> F -> F;
  fsqrt : F -> F;
  fltb : F -> F -> bool;            (* a < b *)
  fpad : F;                         (* score faiss writes next to label -1 *)
  (* SentenceTransformer(EMBED_MODEL).encode, one row per text *)
  encode : pystr -> list F;
  (* os.path, str.lower *)
  os_path_basename : pystr -> pystr;
  os_path_splitext_ext : pystr -> pystr;   (* os.path.splitext(p)[1] *)
  str_lower : pystr -> pystr;
  (* file parsers; [None] when the call raises *)
  read_pdf : pystr -> option pystr;        (* fitz *)
  read_pptx : pystr -> option pystr;       (* python-pptx *)
  read_docx : pystr -> option pystr;       (* python-docx *)
  read_csv : pystr -> option pystr;        (* pandas *)
  read_txt : pystr -> option pystr;        (* open(...).read() *)
  (* uuid.uuid4().hex of the n-th UUID drawn by the process *)
  uuid4_hex : nat -> pystr;
  (* str() of numbers inside f-strings *)
  str_int : Z -> pystr;
  str_float : F -> pystr;
  (* re.search(pattern, text, flags): [Some groups] with group 0 first *)
  re_search : string -> bool -> pystr -> option (list pystr);
  (* environment and HTTP backend *)
  GROQ_API_KEY : option pystr;
  GROQ_API_URL : pystr;
  requests_post : pystr -> pystr -> pystr -> Z -> http_result F
}.

(** ** Data model *)

Inductive metaval : Type :=
| MStr (s : pystr)
| MInt (z : Z).

Definition EMBED_DIM : Z := 384.

Section Model.
Context `{Ext : Externals}.

(** A chunk dict [{"text": ..., "meta": {...}}]; the ["meta"] key may be
    absent ([c.get("meta", {})]). *)
Record Chunk : Type := mkChunk {
  chunk_text : pystr;
  chunk_meta : option (gmap string metaval)
}.

Definition chunk_get_meta (c : Chunk) : gmap string metaval :=
  default ∅ (chunk_meta c).

(** A retrieval result [{"score": ..., "meta": ..., "text": ...}]. *)
Record RetrievalResult : Type := mkResult {
  score : F;
  meta : gmap string metaval;
  text : pystr
}.

(** Values stored in an envelope payload. *)
Inductive pyval : Type :=
| VNone
| VInt (z : Z)
| VStr (s : pystr)
| VJson (j : json F)
| VResults (rs : list RetrievalResult).

(** The MCP message dict. *)
Record Envelope : Type := mkEnvelope {
  sender : string;
  receiver : string;
  type : string;
  trace_id : pystr;
  payload : list (string * pyval)
}.

(** Records handed to [logging]. *)
Inductive LogRecord : Type :=
| LogMcp (sender receiver type : string)  (* "MCP message: %s -> %s : %s" *)
| LogParseError (file_path : pystr)       (* "Error parsing %s: %s" *)
| LogParsed (filename : pystr) (n : Z)    (* "IngestionAgent: parsed %s -> %d chunks" *)
| LogIndexSize (ntotal : Z)               (* "RetrievalAgent: index size now %d" *)
| LogPromptLen (n : Z)                    (* "LLMResponseAgent: sending prompt (len=%d chars)" *)
| LogNoApiKey                             (* "GROQ_API_KEY not set; using local stub LLM." *)
| LogLlmFailed (msg : pystr).             (* "LLM call failed: %s" *)

(** The flat inner-product index: width and stored rows, in insertion
    order. *)
Record IndexFlatIP : Type := mkIndex {
  d : Z;
  xb : list (list F)
}.

Definition ntotal (ix : IndexFlatIP) : Z := Z.of_nat (length (xb ix)).

(** [RetrievalAgent] instance state ([self.model] is [encode]). *)
Record RetrievalAgent : Type := mkAgent {
  index : option IndexFlatIP;
  metadatas : list (gmap string metaval);
  texts : list pystr
}.

(** [RetrievalAgent.__init__] *)
Definition RetrievalAgent_init : RetrievalAgent :=
  {| index := None; metadatas := []; texts := [] |}.

(** Process state: the singleton [_default_agent], what was printed, what
    was logged, and how many UUIDs have been drawn. *)
Record World : Type := mkWorld {
  agent : RetrievalAgent;
  stdout : list Envelope;
  log : list LogRecord;
  uuids : nat
}.

Definition initial_world : World :=
  {| agent := RetrievalAgent_init; stdout := []; log := []; uuids := 0 |}.

(** ** The state-and-exception monad *)

Definition M (A : Type) : Type := World -> result A * World.

#[export] Instance M_ret : MRet M := fun A a w => (Ok a, w).
#[export] Instance M_bind : MBind M := fun A B f m w =>
  match m w with
  | (Ok a, w') => f a w'
  | (Raise e, w') => (Raise e, w')
  end.

Definition lift {A : Type} (r : result A) : M A := fun w => (r, w).

Definition logging (r : LogRecord) : M unit := fun w =>
  (Ok tt, {| agent := agent w; stdout := stdout w;
             log := log w ++ [r]; uuids := uuids w |}).

Definition print_message (m : Envelope) : M unit := fun w =>
  (Ok tt, {| agent := agent w; stdout := stdout w ++ [m];
             log := log w; uuids := uuids w |}).

Definition get_agent : M RetrievalAgent := fun w => (Ok (agent w), w).

Definition set_agent (a : RetrievalAgent) : M unit := fun w =>
  (Ok tt, {| agent := a; stdout := stdout w; log := log w; uuids := uuids w |}).

(** ** [mcp.py] *)

Definition make_trace_id (prefix : pystr) : M pystr := fun w =>
  (Ok (prefix ++ py "-" ++ take 8 (uuid4_hex (uuids w))),
   {| agent := agent w; stdout := stdout w; log := log w;
      uuids := S (uuids w) |}).

Definition send_mcp_message (sender receiver type : string)
    (payload : list (string * pyval)) (trace_id : option pystr) : M Envelope :=
  trace_id ← match trace_id with
             | None => make_trace_id (py "rag")
             | Some t => mret t
             end;
  let message := {| sender := sender; receiver := receiver; type := type;
                    trace_id := trace_id; payload := payload |} in
  _ ← print_message message;
  _ ← logging (LogMcp sender receiver type);
  mret message.

(** ** [ingestion_agent.py] *)

Definition parse_pdf (path : pystr) : option pystr := read_pdf path.
Definition parse_pptx (path : pystr) : option pystr := read_pptx path.
Definition parse_docx (path : pystr) : option pystr := read_docx path.
Definition parse_txt (path : pystr) : option pystr := read_txt path.
Definition parse_csv (path : pystr) : option pystr := read_csv path.

Definition pystr_eqb (a b : pystr) : bool := bool_decide (a = b).

(** The [if ext == ... elif ...] chain inside the [try] block. *)
Definition parse_by_extension (ext file_path : pystr) : option pystr :=
  if pystr_eqb ext (py ".pdf") then parse_pdf file_path
  else if pystr_eqb ext (py ".pptx") || pystr_eqb ext (py ".ppt")
       then parse_pptx file_path
  else if pystr_eqb ext (py ".docx") then parse_docx file_path
  else if pystr_eqb ext (py ".csv") then parse_csv file_path
  else if pystr_eqb ext (py ".txt") || pystr_eqb ext (py ".md")
       then parse_txt file_path
  else parse_txt file_path.

Definition make_chunk (filename : pystr) (i : nat) (c : pystr) : Chunk :=
  {| chunk_text := c;
     chunk_meta := Some (<["filename" := MStr filename]>
                         (<["chunk_index" := MInt (Z.of_nat i)]> ∅)) |}.

Definition process_document (file_path : pystr) (filename : option pystr)
    : M (list Chunk) :=
  let filename := match filename with
                  | None => os_path_basename file_path
                  | Some f => f
                  end in
  let ext := str_lower (os_path_splitext_ext filename) in
  text ← match parse_by_extension ext file_path with
         | Some text => mret text
         | None => _ ← logging (LogParseError file_path); mret []
         end;
  pieces ← lift (_chunk_text text CHUNK_SIZE);
  let chunks := imap (make_chunk filename) pieces in
  _ ← send_mcp_message "IngestionAgent" "RetrievalAgent" "DOCUMENT_PARSED"
        [("filename", VStr filename);
         ("n_chunks", VInt (Z.of_nat (length chunks)))] None;
  _ ← logging (LogParsed filename (Z.of_nat (length chunks)));
  mret chunks.

(** ** The vector index (faiss) *)

(** Modelled from the spec: [faiss.normalize_L2] on one row, which is
    library code. The row is divided by its Euclidean norm; a zero row is
    left as it is. *)
Definition normalize_L2 (v : list F) : list F :=
  let nr := foldl (fun acc x => fadd acc (fmul x x)) fzero v in
  if fltb fzero nr
  then let inv := fdiv fone (fsqrt nr) in map (fun x => fmul x inv) v
  else v.

(** [faiss.normalize_L2] on the matrix of a batch. For an empty batch the
    model's [encode([])] is a one-dimensional empty array, and
    [faiss.normalize_L2] raises [IndexError] when it reads the second
    dimension of its shape. *)
Definition normalize_L2_rows (rows : list (list F))
    : result (list (list F)) :=
  match rows with
  | [] => Raise IndexError
  | _ :: _ => Ok (map normalize_L2 rows)
  end.

Definition inner_product (a b : list F) : F :=
  foldl (fun acc xy => fadd acc (fmul xy.1 xy.2)) fzero (zip a b).

(** Modelled from the spec: [IndexFlatIP.add], which is library code. Rows
    are appended in submission order; a row whose width is not [d] is
    rejected and nothing is stored. *)
Definition index_add (ix : IndexFlatIP) (rows : list (list F))
    : result IndexFlatIP :=
  if forallb (fun v => Z.of_nat (length v) =? d ix) rows
  then Ok {| d := d ix; xb := xb ix ++ rows |}
  else Raise DimensionMismatch.

(** [x] is listed before [y]: higher score first, on equal scores the lower
    ordinal first. *)
Definition outranks (x y : F * nat) : bool :=
  if fltb y.1 x.1 then true
  else if fltb x.1 y.1 then false
  else (x.2 <=? y.2)%nat.

Fixpoint insert_ranked (x : F * nat) (l : list (F * nat)) : list (F * nat) :=
  match l with
  | [] => [x]
  | y :: l' => if outranks x y then x :: l else y :: insert_ranked x l'
  end.

Definition rank_hits (l : list (F * nat)) : list (F * nat) :=
  foldr insert_ranked [] l.

Definition scored_entries (ix : IndexFlatIP) (q : list F) : list (F * nat) :=
  imap (fun i v => (inner_product q v, i)) (xb ix).

(** Modelled from the spec: [IndexFlatIP.search] for one query row, which
    is library code. The query must have width [d]; every stored row is
    scored by inner product; the [k] best ordinals are returned with their
    scores, best first, equal scores by lower ordinal. As faiss does, the
    answer always has [k] slots and the unused ones carry label [-1], the
    case [retrieve] skips. *)
Definition index_search (ix : IndexFlatIP) (q : list F) (k : Z)
    : result (list (F * Z)) :=
  if Z.of_nat (length q) =? d ix then
    let top := take (Z.to_nat k) (rank_hits (scored_entries ix q)) in
    Ok (map (fun h => (h.1, Z.of_nat h.2)) top
        ++ replicate (Z.to_nat k - length top) (fpad, -1))
  else Raise DimensionMismatch.

(** ** [retrieval_agent.py] *)

(** [RetrievalAgent.build_index], with [self] the singleton
    [_default_agent]. *)
Definition build_index (chunks : list Chunk) : M unit :=
  self ← get_agent;
  let texts_ := map chunk_text chunks in
  let vectors := map encode texts_ in
  vectors ← lift (normalize_L2_rows vectors);
  let ix := match index self with
            | None => {| d := EMBED_DIM; xb := [] |}
            | Some ix => ix
            end in
  _ ← set_agent {| index := Some ix; metadatas := metadatas self;
                   texts := texts self |};
  ix' ← lift (index_add ix vectors);
  _ ← set_agent {| index := Some ix';
                   metadatas := metadatas self ++ map chunk_get_meta chunks;
                   texts := texts self ++ texts_ |};
  logging (LogIndexSize (ntotal ix')).

(** The [for score, idx in zip(D[0], I[0])] loop of [retrieve]. *)
Fixpoint collect_results (self : RetrievalAgent) (hits : list (F * Z))
    (results : list RetrievalResult) : result (list RetrievalResult) :=
  match hits with
  | [] => Ok results
  | (s, idx) :: hits' =>
      if idx <? 0 then collect_results self hits' results
      else
        match metadatas self !! Z.to_nat idx, texts self !! Z.to_nat idx with
        | Some m, Some t =>
            collect_results self hits'
              (results ++ [{| score := s; meta := m; text := t |}])
        | _, _ => Raise IndexError
        end
  end.

(** [RetrievalAgent.retrieve] *)
Definition retrieve (query : pystr) (top_k : Z) : M (list RetrievalResult) :=
  self ← get_agent;
  match index self with
  | None => mret []
  | Some ix =>
      if ntotal ix =? 0 then mret []
      else
        let q_vec := normalize_L2 (encode query) in
        hits ← lift (index_search ix q_vec top_k);
        lift (collect_results self hits [])
  end.

Definition index_chunks (chunks : list Chunk) : M unit := build_index chunks.

Definition handle_query (query : pystr) (top_k : Z)
    : M (list RetrievalResult) :=
  top ← retrieve query top_k;
  _ ← send_mcp_message "RetrievalAgent" "LLMResponseAgent" "RETRIEVAL_RESULT"
        [("retrieved_context", VResults top); ("query", VStr query)] None;
  mret top.

(** ** [llm_response_agent.py] *)

(** [m.group(i)]: the first element is [m.group()]. *)
Definition group (m : list pystr) (i : nat) : pystr := nth i m [].

(** [s.replace(a, b)] for one-character [a] and [b]. *)
Definition replace_char (a b : codepoint) (s : pystr) : pystr :=
  map (fun c => if (c =? a)%N then b else c) s.

(** The ordered rules of the stub extractor; [re.IGNORECASE] is the boolean
    handed to [re_search]. *)
Definition extract_stub_answers (text : pystr) : pystr :=
  match m ← re_search "\$[0-9.]+\s*billion.*2023" false text;
        re_search "\$[0-9.]+\s*billion" false (group m 0) with
  | Some value => py "(Stub Answer) Revenue in 2023 was " ++ group value 0
  | None =>
  match m ← re_search "\$[0-9.]+\s*billion.*2024" false text;
        re_search "\$[0-9.]+\s*billion" false (group m 0) with
  | Some value => py "(Stub Answer) Revenue in 2024 was " ++ group value 0
  | None =>
  match m ← re_search "CAC.*?\$[0-9]+" true text;
        re_search "\$[0-9]+" false (group m 0) with
  | Some value =>
      py "(Stub Answer) Customer Acquisition Cost was " ++ group value 0
  | None =>
  match re_search "NPS.*?(\d{2})" true text with
  | Some m => py "(Stub Answer) Net Promoter Score was " ++ group m 1
  | None =>
  match re_search "Retention rate was (\d+)%" true text with
  | Some m => py "(Stub Answer) Retention rate was " ++ group m 1 ++ py "%"
  | None =>
  match re_search "churn rate (decreased to|was) (\d+)%" true text with
  | Some m => py "(Stub Answer) Churn rate was " ++ group m 2 ++ py "%"
  | None =>
  match re_search "Employee satisfaction.*?(\d+)%" true text with
  | Some m =>
      py "(Stub Answer) Employee satisfaction score was " ++ group m 1
      ++ py "%"
  | None =>
  match re_search "carbon footprint.*?(\d+)%" true text with
  | Some m =>
      py "(Stub Answer) Carbon footprint reduced by " ++ group m 1 ++ py "%"
  | None =>
      let short_preview := replace_char 10%N 32%N (slice text 0 400) in
      py "(Stub Answer) " ++ short_preview
  end end end end end end end end.

(** The eight searches [extract_stub_answers] runs on the text itself, in
    the order of the source, each with its [re.IGNORECASE] flag. The three
    searches on [m.group()] are not among them. *)
Definition stub_rule_patterns : list (string * bool) :=
  [("\$[0-9.]+\s*billion.*2023", false);
   ("\$[0-9.]+\s*billion.*2024", false);
   ("CAC.*?\$[0-9]+", true);
   ("NPS.*?(\d{2})", true);
   ("Retention rate was (\d+)%", true);
   ("churn rate (decreased to|was) (\d+)%", true);
   ("Employee satisfaction.*?(\d+)%", true);
   ("carbon footprint.*?(\d+)%", true)].

(** [sep.join(parts)] *)
Definition str_join (sep : pystr) (parts : list pystr) : pystr :=
  match parts with
  | [] => []
  | p :: ps => p ++ flat_map (fun q => sep ++ q) ps
  end.

(** The dict [call_llm] returns. *)
Record LlmResponse : Type := mkLlmResponse {
  llm_answer : json F;
  llm_raw : option (json F)
}.

(** [type(x).__name__] of a decoded JSON value. *)
Definition type_name (j : json F) : pystr :=
  match j with
  | JNull => py "NoneType"
  | JBool _ => py "bool"
  | JInt _ => py "int"
  | JFloat _ => py "float"
  | JStr _ => py "str"
  | JArr _ => py "list"
  | JObj _ => py "dict"
  end.

(** [fields.get(key)] on a decoded JSON object. *)
Fixpoint json_get (key : pystr) (fields : list (pystr * json F))
    : option (json F) :=
  match fields with
  | [] => None
  | (k, v) :: rest => if pystr_eqb k key then Some v else json_get key rest
  end.

(** The body of the [try] block of [call_llm]: [inl] carries [str(e)] of the
    exception that leaves it. *)
Definition try_backend (key prompt : pystr) (max_tokens : Z)
    : pystr + LlmResponse :=
  match requests_post GROQ_API_URL key prompt max_tokens with
  | HttpFailed msg => inl msg
  | HttpJson data =>
      match data with
      | JObj fields =>
          let fallback := default (JStr []) (json_get (py "answer") fields) in
          let answer := default fallback (json_get (py "output") fields) in
          inr {| llm_answer := answer; llm_raw := Some data |}
      | _ =>
          inl (py "'" ++ type_name data
               ++ py "' object has no attribute 'get'")
      end
  end.

Definition call_llm (prompt : pystr) (retrieved : list RetrievalResult)
    (max_tokens : Z) : M LlmResponse :=
  match GROQ_API_KEY with
  | Some (c :: key') =>
      match try_backend (c :: key') prompt max_tokens with
      | inr resp => mret resp
      | inl msg =>
          _ ← logging (LogLlmFailed msg);
          mret {| llm_answer := JStr (py "[LLM error] " ++ msg);
                  llm_raw := None |}
      end
  | _ =>
      _ ← logging LogNoApiKey;
      match retrieved with
      | _ :: _ =>
          let text_ := str_join (py " ") (map text (take 3 retrieved)) in
          let answer := extract_stub_answers text_ in
          mret {| llm_answer := JStr answer; llm_raw := None |}
      | [] =>
          mret {| llm_answer := JStr (py "(Stub Answer) No relevant context found.");
                  llm_raw := None |}
      end
  end.

(** [str(meta.get(key))] inside the f-string. *)
Definition str_meta_get (m : gmap string metaval) (key : string) : pystr :=
  match m !! key with
  | None => py "None"
  | Some (MStr s) => s
  | Some (MInt z) => str_int z
  end.

Definition newline : pystr := [10%N].

Definition format_prompt (query : pystr) (retrieved : list RetrievalResult)
    : pystr :=
  let builder :=
    [py "You are a helpful assistant. Use only the context below to answer the question. If the answer is not present, say you don't know.";
     newline ++ py "### Query:" ++ newline ++ query ++ newline;
     py "### Context (top chunks):" ++ newline]
    ++ imap (fun i r =>
               py "[Chunk " ++ str_int (Z.of_nat i) ++ py "] source="
               ++ str_meta_get (meta r) "filename" ++ py " idx="
               ++ str_meta_get (meta r) "chunk_index" ++ py " score="
               ++ str_float (score r) ++ newline ++ text r ++ newline
               ++ py "---" ++ newline) retrieved
    ++ [newline ++ py "Provide a concise answer, and list which chunk(s) were used as sources (by filename + chunk_index)."] in
  str_join newline builder.

(** The dict returned to the caller. *)
Record Response : Type := mkResponse {
  answer : json F;
  retrieved : list RetrievalResult
}.

Definition answer_query (query : pystr) (retrieved : list RetrievalResult)
    : M Response :=
  let prompt := format_prompt query retrieved in
  _ ← logging (LogPromptLen (Z.of_nat (length prompt)));
  llm_resp ← call_llm prompt retrieved 512;
  let answer := llm_answer llm_resp in
  _ ← send_mcp_message "LLMResponseAgent" "UI" "FINAL_RESPONSE"
        [("query", VStr query); ("answer", VJson answer);
         ("retrieved", VResults retrieved);
         ("llm_raw", match llm_raw llm_resp with
                     | Some j => VJson j
                     | None => VNone
                     end)] None;
  mret {| answer := answer; retrieved := retrieved |}.

(** ** [coordinator_agent.py] *)

(** Step 1, the [for p in file_paths] loop. *)
Fixpoint ingest_files (file_paths : list pystr) (all_chunks : list Chunk)
    : M (list Chunk) :=
  match file_paths with
  | [] => mret all_chunks
  | p :: rest =>
      chunks ← process_document p (Some p);
      ingest_files rest (all_chunks ++ chunks)
  end.

Definition handle_uploads_and_query (file_paths : list pystr) (query : pystr)
    : M Response :=
  all_chunks ← ingest_files file_paths [];
  _ ← send_mcp_message "CoordinatorAgent" "RetrievalAgent" "BUILD_INDEX"
        [("n_chunks", VInt (Z.of_nat (length all_chunks)))] None;
  _ ← match all_chunks with
      | _ :: _ => index_chunks all_chunks
      | [] => mret tt
      end;
  retrieved ← handle_query query 5;
  response ← answer_query query retrieved;
  mret response.

(** ** [app.py] *)

(** [st.session_state]: the MCP messages kept for display and the
    conversation turns [{"user": ..., "assistant": ...}]. *)
Record SessionState : Type := mkSession {
  mcp_log : list Envelope;
  chat_history : list (pystr * json F)
}.

(** The state of a new session. *)
Definition session_init : SessionState :=
  {| mcp_log := []; chat_history := [] |}.

Definition add_mcp_to_state (msg : Envelope) (st : SessionState)
    : SessionState :=
  {| mcp_log := mcp_log st ++ [msg]; chat_history := chat_history st |}.

(** [l[i:]] *)
Definition slice_from {A : Type} (l : list A) (i : Z) : list A :=
  slice l i (Z.of_nat (length l)).

(** The [if st.button("Ask") and query:] block of one script run:
    [button] is what [st.button("Ask")] returned and [saved_paths] the
    temporary files of the uploads. The first component is the answer
    written to the page, if any; the session state is returned as the block
    left it, also when the pipeline raises. *)
Definition ask_block (button : bool) (saved_paths : list pystr)
    (query : pystr) (st : SessionState) (w : World)
    : result (option (json F)) * SessionState * World :=
  match button, query with
  | true, _ :: _ =>
      match send_mcp_message "UI" "CoordinatorAgent" "USER_QUERY"
              [("query", VStr query)] None w with
      | (Raise e, w1) => (Raise e, st, w1)
      | (Ok m, w1) =>
          let st1 := add_mcp_to_state m st in
          match handle_uploads_and_query saved_paths query w1 with
          | (Raise e, w2) => (Raise e, st1, w2)
          | (Ok resp, w2) =>
              (Ok (Some (answer resp)),
               {| mcp_log := mcp_log st1;
                  chat_history := chat_history st1
                                  ++ [(query, answer resp)] |},
               w2)
          end
      end
  | _, _ => (Ok None, st, w)
  end.

(** The turns listed under "Conversation (latest turns)":
    [reversed(chat_history[-20:])]. *)
Definition conversation_view (st : SessionState) : list (pystr * json F) :=
  rev (slice_from (chat_history st) (-20)).

(** The messages listed under "MCP Log (last 10 messages)":
    [mcp_log[-10:]]. *)
Definition mcp_log_view (st : SessionState) : list Envelope :=
  slice_from (mcp_log st) (-10).

(** ** Vocabulary of the statements *)

(** Number of entries the agent's index holds (none before it is built). *)
Definition index_size (a : RetrievalAgent) : nat :=
  match index a with
  | None => 0%nat
  | Some ix => length (xb ix)
  end.

(** Rows the agent's index holds. *)
Definition index_rows (a : RetrievalAgent) : list (list F) :=
  match index a with
  | None => []
  | Some ix => xb ix
  end.

(** The index and the two parallel sequences agree on the ordinals. *)
Definition agent_wf (a : RetrievalAgent) : Prop :=
  length (metadatas a) = length (texts a)
  /\ match index a with
     | None => length (texts a) = 0%nat
     | Some ix => d ix = EMBED_DIM /\ length (xb ix) = length (texts a)
     end.

(** Successive [build_index] calls, one per batch. *)
Fixpoint index_batches (batches : list (list Chunk)) : M unit :=
  match batches with
  | [] => mret tt
  | chunks :: rest => _ ← build_index chunks; index_batches rest
  end.

(** The text [process_document] chunks for a file: what its parser read, or
    the empty string when the parser raised. *)
Definition document_text (file_path filename : pystr) : pystr :=
  default [] (parse_by_extension
                (str_lower (os_path_splitext_ext filename)) file_path).

(** The parser chosen for the file raises. *)
Definition parse_fails (file_path filename : pystr) : Prop :=
  parse_by_extension (str_lower (os_path_splitext_ext filename)) file_path
  = None.

(** The float comparison is a strict weak order on the scores [ss] that a
    search compares: asymmetric, and whatever lies between two scores is
    above the lower or below the higher one. It holds of IEEE floats as
    soon as no score of [ss] is a NaN. *)
Definition scores_strictly_ordered (ss : list F) : Prop :=
  (forall a b : F, a ∈ ss -> b ∈ ss -> fltb a b = true -> fltb b a = false)
  /\ (forall a b c : F,
        a ∈ ss -> b ∈ ss -> c ∈ ss ->
        fltb a c = true -> fltb a b = true \/ fltb b c = true).

(** The same, decided by running the comparison on all pairs and triples of
    [ss]. *)
Definition scores_strictly_ordered_b (ss : list F) : bool :=
  forallb (fun a =>
    forallb (fun b =>
      implb (fltb a b) (negb (fltb b a))
      && forallb (fun c => implb (fltb a c) (fltb a b || fltb b c)) ss)
      ss) ss.

(** The scores of the agent's rows against a normalized query row. *)
Definition query_scores (a : RetrievalAgent) (q : list F) : list F :=
  map (inner_product q) (index_rows a).

(** The process state after [build_index] has been called on each batch in
    turn, whether a call returned or raised. *)
Fixpoint after_build_index_calls (batches : list (list Chunk)) (w : World)
    : World :=
  match batches with
  | [] => w
  | chunks :: rest => after_build_index_calls rest (build_index chunks w).2
  end.

(** The meta [build_index] stores for a chunk: its ["meta"] entry, or the
    empty dict when the chunk has none. *)
Definition meta_stored_for (c : Chunk) (m : gmap string metaval) : Prop :=
  match chunk_meta c with
  | Some m' => m = m'
  | None => m = ∅
  end.

(** The embedding model produces rows of the configured width. *)
Definition encode_width_ok : Prop :=
  forall t : pystr, Z.of_nat (length (encode t)) = EMBED_DIM.

(** The result [retrieve] builds for ordinal [o] with score [s]. *)
Definition result_at (a : RetrievalAgent) (s : F) (o : nat)
    : option RetrievalResult :=
  match metadatas a !! o, texts a !! o with
  | Some m, Some t => Some {| score := s; meta := m; text := t |}
  | _, _ => None
  end.

(** Envelopes of one message type among those printed. *)
Definition envelopes_of_type (ty : string) (out : list Envelope)
    : list Envelope :=
  filter (fun e => type e = ty) out.

(** The pieces [_chunk_text] cuts a text into at the default size. *)
Definition chunk_pieces (text : pystr) : list pystr :=
  match _chunk_text text CHUNK_SIZE with
  | Ok pieces => pieces
  | Raise _ => []
  end.

(** The chunks a file contributes: a function of the file alone. *)
Definition document_chunks (file_path filename : pystr) : list Chunk :=
  imap (make_chunk filename) (chunk_pieces (document_text file_path filename)).

(** The envelope [send_mcp_message] builds when it draws the trace id
    itself, in a process that has drawn [n] UUIDs so far. *)
Definition envelope_at (n : nat) (sender receiver type : string)
    (payload : list (string * pyval)) : Envelope :=
  {| sender := sender; receiver := receiver; type := type;
     trace_id := py "rag" ++ py "-" ++ take 8 (uuid4_hex n);
     payload := payload |}.

(** What [process_document] logs before the envelope. *)
Definition parse_log (file_path filename : pystr) : list LogRecord :=
  match parse_by_extension (str_lower (os_path_splitext_ext filename))
          file_path with
  | Some _ => []
  | None => [LogParseError file_path]
  end.

Definition document_parsed_envelope (n : nat) (file_path filename : pystr)
    : Envelope :=
  envelope_at n "IngestionAgent" "RetrievalAgent" "DOCUMENT_PARSED"
    [("filename", VStr filename);
     ("n_chunks",
      VInt (Z.of_nat (length (document_chunks file_path filename))))].


(** The row [build_index] stores for a chunk. *)
Definition stored_row (c : Chunk) : list F :=
  normalize_L2 (encode (chunk_text c)).

(** The agent after [build_index] has stored [chunks]. *)
Definition agent_extended (a : RetrievalAgent) (chunks : list Chunk)
    : RetrievalAgent :=
  {| index := Some {| d := EMBED_DIM;
                      xb := index_rows a ++ map stored_row chunks |};
     metadatas := metadatas a ++ map chunk_get_meta chunks;
     texts := texts a ++ map chunk_text chunks |}.

(** The scored ordinals a search for [k] results over the agent's rows
    selects, best first. *)
Definition search_hits (a : RetrievalAgent) (q : list F) (k : Z)
    : list (F * nat) :=
  take (Z.to_nat k)
    (rank_hits (imap (fun i v => (inner_product q v, i)) (index_rows a))).

(** [x] is listed before [y]. *)
Definition ranked_before (x y : F * nat) : Prop := outranks x y = true.

(** The chunks accumulated over a batch of files. *)
Definition accumulated_chunks (paths : list pystr) : list Chunk :=
  flat_map (fun p => document_chunks p p) paths.

(** The envelope and the log line of the [BUILD_INDEX] hand-off. *)
Definition build_index_envelope (n : nat) (chunks : list Chunk) : Envelope :=
  envelope_at n "CoordinatorAgent" "RetrievalAgent" "BUILD_INDEX"
    [("n_chunks", VInt (Z.of_nat (length chunks)))].

(** What [build_index] logs during a run: nothing when it is not called. *)
Definition index_log (a : RetrievalAgent) (chunks : list Chunk)
    : list LogRecord :=
  match chunks with
  | [] => []
  | _ :: _ => [LogIndexSize (Z.of_nat (index_size a + length chunks))]
  end.

(** The agent after step 2 of a run. *)
Definition agent_after_indexing (a : RetrievalAgent) (chunks : list Chunk)
    : RetrievalAgent :=
  match chunks with
  | [] => a
  | _ :: _ => agent_extended a chunks
  end.

(** The world a run has reached when ingestion is over and the
    [BUILD_INDEX] envelope is out. *)
Definition world_before_indexing (paths : list pystr) (w : World) : World :=
  {| agent := agent w;
     stdout := stdout w
               ++ imap (fun i p => document_parsed_envelope (uuids w + i) p p)
                    paths
               ++ [build_index_envelope (uuids w + length paths)
                     (accumulated_chunks paths)];
     log := log (ingest_files paths [] w).2
            ++ [LogMcp "CoordinatorAgent" "RetrievalAgent" "BUILD_INDEX"];
     uuids := S (uuids w + length paths) |}.

End Model.

(** ** A concrete deployment

    Integers stand for floats, the embedding of a text is the unit row
    selected by its length, files live in a three-entry table, no pattern of
    the stub extractor matches, and the backend times out. It is used to run
    the model on concrete inputs. *)
Module Demo.

Definition unit_row (i : nat) : list Z :=
  replicate i 0 ++ [1] ++ replicate (383 - i) 0.

Definition demo_encode (t : pystr) : list Z :=
  unit_row (length t `mod` 384).

(** [os.path.splitext(p)[1]] for names without directory part and with at
    most one dot. *)
Fixpoint demo_ext (p : pystr) : pystr :=
  match p with
  | [] => []
  | c :: p' => if (c =? 46)%N then p else demo_ext p'
  end.

Definition demo_read (path : pystr) : option pystr :=
  if pystr_eqb path (py "notes.txt") then Some (py "  alpha beta  ")
  else if pystr_eqb path (py "blank.txt") then Some (py "   ")
  else if pystr_eqb path (py "more.md") then Some (py "gamma")
  else None.

Definition demo_externals (enc : pystr -> list Z) (key : option pystr)
    : Externals :=
  {| F := Z; fzero := 0; fone := 1;
     fadd := Z.add; fmul := Z.mul; fdiv := Z.div; fsqrt := Z.sqrt;
     fltb := Z.ltb; fpad := -1000;
     encode := enc;
     os_path_basename := fun p => p;
     os_path_splitext_ext := demo_ext;
     str_lower := fun p => p;
     read_pdf := fun _ => None;
     read_pptx := fun _ => None;
     read_docx := fun _ => None;
     read_csv := fun _ => None;
     read_txt := demo_read;
     uuid4_hex := fun n => replicate 32 (48 + N.of_nat (n `mod` 10))%N;
     str_int := fun z => [(48 + Z.to_N (z `mod` 10))%N];
     str_float := fun z => [(48 + Z.to_N (z `mod` 10))%N];
     re_search := fun _ _ _ => None;
     GROQ_API_KEY := key;
     GROQ_API_URL := py "https://api.groq.com/v1/llm";
     requests_post := fun _ _ _ _ => HttpFailed (py "timed out") |}.

(** No API key: stub mode. *)
Definition stub_env : Externals := demo_externals demo_encode None.

(** An API key is set and the backend call fails. *)
Definition live_env : Externals :=
  demo_externals demo_encode (Some (py "gsk")).

(** An embedding model of width 128 queried against a 384-wide index. *)
Definition narrow_env : Externals :=
  demo_externals (fun _ => replicate 128 0) None.

(** Three chunks of two documents. *)
Definition alpha : Chunk := make_chunk (py "notes.txt") 0 (py "alpha").
Definition beta : Chunk := make_chunk (py "notes.txt") 1 (py "beta").
Definition gamma : Chunk := make_chunk (py "more.md") 0 (py "gamma").

(** The stub deployment after two [build_index] calls. *)
Definition indexed_world : @World stub_env :=
  (@index_batches stub_env [[alpha; beta]; [gamma]]
     (@initial_world stub_env)).2.

(** A 384-wide index holding one row, in the deployment whose model is 128
    wide. *)
Definition narrow_world : @World narrow_env :=
  @mkWorld narrow_env
    (@mkAgent narrow_env (Some (@mkIndex narrow_env EMBED_DIM [unit_row 0]))
       [∅] [py "alpha"])
    [] [] 0.

End Demo.

Module ReplyDemo.
Import Demo.

(** The stub deployment with an API key and a backend that answers with
    the JSON value [data]. *)
Definition reply_env (data : json Z) : Externals :=
  {| F := Z; fzero := 0; fone := 1;
     fadd := Z.add; fmul := Z.mul; fdiv := Z.div; fsqrt := Z.sqrt;
     fltb := Z.ltb; fpad := -1000;
     encode := demo_encode;
     os_path_basename := fun p => p;
     os_path_splitext_ext := demo_ext;
     str_lower := fun p => p;
     read_pdf := fun _ => None;
     read_pptx := fun _ => None;
     read_docx := fun _ => None;
     read_csv := fun _ => None;
     read_txt := demo_read;
     uuid4_hex := fun n => replicate 32 (48 + N.of_nat (n `mod` 10))%N;
     str_int := fun z => [(48 + Z.to_N (z `mod` 10))%N];
     str_float := fun z => [(48 + Z.to_N (z `mod` 10))%N];
     re_search := fun _ _ _ => None;
     GROQ_API_KEY := Some (py "gsk");
     GROQ_API_URL := py "https://api.groq.com/v1/llm";
     requests_post := fun _ _ _ _ => HttpJson data |}.

(** A reply that is a JSON list. *)
Definition list_reply : json Z := JArr [JStr (py "hello")].

(** A reply object with both keys, and one with neither. *)
Definition full_reply : list (pystr * json Z) :=
  [(py "answer", JStr (py "second")); (py "output", JStr (py "first"))].
Definition bare_reply : list (pystr * json Z) :=
  [(py "id", JInt 7)].

End ReplyDemo.

(** ** A deployment on IEEE floats

    The scores are binary64 floats with the machine's arithmetic; the
    embedding of a text is one of two rows of norm 5, chosen by the parity of
    its length, so that normalisation, rounding and ties all occur. *)
Module FloatDemo.
Import Floats.PrimFloat.

Definition float_encode (t : pystr) : list float :=
  replicate 382 0%float
  ++ (if Nat.even (length t) then [3; 4]%float else [4; 3]%float).

Definition float_env : Externals :=
  {| F := float; fzero := 0%float; fone := 1%float;
     fadd := PrimFloat.add; fmul := PrimFloat.mul; fdiv := PrimFloat.div;
     fsqrt := PrimFloat.sqrt; fltb := PrimFloat.ltb; fpad := neg_infinity;
     encode := float_encode;
     os_path_basename := fun p => p;
     os_path_splitext_ext := Demo.demo_ext;
     str_lower := fun p => p;
     read_pdf := fun _ => None;
     read_pptx := fun _ => None;
     read_docx := fun _ => None;
     read_csv := fun _ => None;
     read_txt := Demo.demo_read;
     uuid4_hex := fun n => replicate 32 (48 + N.of_nat (n `mod` 10))%N;
     str_int := fun z => [(48 + Z.to_N (z `mod` 10))%N];
     str_float := fun _ => py "0.0";
     re_search := fun _ _ _ => None;
     GROQ_API_KEY := None;
     GROQ_API_URL := py "https://api.groq.com/v1/llm";
     requests_post := fun _ _ _ _ => HttpFailed (py "timed out") |}.

(** The float deployment after [build_index] was called on a batch of two
    chunks, on an empty batch and on a batch of one chunk. *)
Definition float_world : @World float_env :=
  @after_build_index_calls float_env
    [[Demo.alpha; Demo.beta]; []; [Demo.gamma]] (@initial_world float_env).

End FloatDemo.

(** ** A deployment whose regex engine finds the empty pattern

    As in Python, [re.search('', s)] matches every [s], with the empty
    string as [m.group()]; every other pattern is taken not to match. *)
Module RegexDemo.
Import Demo.

Definition regex_search (pattern : string) (ignorecase : bool) (s : pystr)
    : option (list pystr) :=
  if String.eqb pattern "" then Some [[]] else None.

Definition regex_env : Externals :=
  {| F := Z; fzero := 0; fone := 1;
     fadd := Z.add; fmul := Z.mul; fdiv := Z.div; fsqrt := Z.sqrt;
     fltb := Z.ltb; fpad := -1000;
     encode := demo_encode;
     os_path_basename := fun p => p;
     os_path_splitext_ext := demo_ext;
     str_lower := fun p => p;
     read_pdf := fun _ => None;
     read_pptx := fun _ => None;
     read_docx := fun _ => None;
     read_csv := fun _ => None;
     read_txt := demo_read;
     uuid4_hex := fun n => replicate 32 (48 + N.of_nat (n `mod` 10))%N;
     str_int := fun z => [(48 + Z.to_N (z `mod` 10))%N];
     str_float := fun z => [(48 + Z.to_N (z `mod` 10))%N];
     re_search := regex_search;
     GROQ_API_KEY := None;
     GROQ_API_URL := py "https://api.groq.com/v1/llm";
     requests_post := fun _ _ _ _ => HttpFailed (py "timed out") |}.

End RegexDemo.

(** * Theorems *)

(** ** The chunker *)

Section ChunkerProofs.

Lemma ceil_div_bounds (a b : Z) :
  0 < b -> (ceil_div a b - 1) * b < a <= ceil_div a b * b.
Proof.
  intros Hb. unfold ceil_div.
  pose proof (Z.div_mod (a + b - 1) b ltac:(lia)) as Hdm.
  pose proof (Z.mod_pos_bound (a + b - 1) b Hb) as Hm.
  nia.
Qed.

Lemma clamp_index_inside (len i : Z) :
  0 <= i <= len -> clamp_index len i = i.
Proof. intros H. unfold clamp_index. destruct (Z.ltb_spec i 0); lia. Qed.

Lemma clamp_index_above (len i : Z) :
  0 <= len <= i -> clamp_index len i = len.
Proof. intros H. unfold clamp_index. destruct (Z.ltb_spec i 0); lia. Qed.

(** A slice that starts inside the list is a [take] of a [drop]. *)
Lemma slice_take_drop {A : Type} (l : list A) (i size : Z) :
  0 <= i <= Z.of_nat (length l) -> 0 <= size ->
  slice l i (i + size) = take (Z.to_nat size) (drop (Z.to_nat i) l).
Proof.
  intros Hi Hs. unfold slice. rewrite (clamp_index_inside _ i) by lia.
  destruct (Z.le_gt_cases (i + size) (Z.of_nat (length l))) as [Hin | Hout].
  - rewrite clamp_index_inside by lia. f_equal. lia.
  - rewrite clamp_index_above by lia.
    rewrite !take_ge; [done | |]; rewrite length_drop; lia.
Qed.

Lemma range_from_chunks (t : pystr) (size : Z) (fuel : nat) (i : Z) :
  0 < size -> 0 <= i ->
  (Z.to_nat (Z.of_nat (length t) - i) <= fuel)%nat ->
  concat (map (fun j => slice t j (j + size))
            (range_from fuel i (Z.of_nat (length t)) size))
  = drop (Z.to_nat i) t.
Proof.
  intros Hs. revert i. induction fuel as [| fuel IH]; intros i Hi Hfuel.
  - simpl. rewrite drop_ge; [done | lia].
  - simpl. replace (0 <? size) with true by (symmetry; apply Z.ltb_lt; lia).
    destruct (Z.ltb_spec i (Z.of_nat (length t))) as [Hlt | Hge].
    + simpl. rewrite IH by lia.
      rewrite slice_take_drop by lia.
      replace (Z.to_nat (i + size)) with (Z.to_nat i + Z.to_nat size)%nat
        by lia.
      rewrite <- drop_drop. apply take_drop.
    + simpl. rewrite drop_ge; [done | lia].
Qed.

Lemma range_from_length (n size : Z) (fuel : nat) (i : Z) :
  0 < size -> (Z.to_nat (n - i) <= fuel)%nat ->
  length (range_from fuel i n size) = Z.to_nat (ceil_div (n - i) size).
Proof.
  intros Hs. revert i. induction fuel as [| fuel IH]; intros i Hfuel.
  - simpl. pose proof (ceil_div_bounds (n - i) size Hs). nia.
  - simpl. replace (0 <? size) with true by (symmetry; apply Z.ltb_lt; lia).
    pose proof (ceil_div_bounds (n - i) size Hs) as Hc.
    destruct (Z.ltb_spec i n) as [Hlt | Hge].
    + simpl. rewrite IH by lia.
      pose proof (ceil_div_bounds (n - (i + size)) size Hs) as Hc'.
      assert (ceil_div (n - i) size = ceil_div (n - (i + size)) size + 1)
        as -> by nia.
      nia.
    + simpl. nia.
Qed.

Lemma range_from_pieces (t : pystr) (size : Z) (fuel : nat) (i : Z) :
  0 < size -> 0 <= i ->
  Forall (fun c : pystr => (0 < length c)%nat /\ Z.of_nat (length c) <= size)
    (map (fun j => slice t j (j + size))
       (range_from fuel i (Z.of_nat (length t)) size)).
Proof.
  intros Hs. revert i. induction fuel as [| fuel IH]; intros i Hi.
  - constructor.
  - simpl. replace (0 <? size) with true by (symmetry; apply Z.ltb_lt; lia).
    destruct (Z.ltb_spec i (Z.of_nat (length t))) as [Hlt | Hge];
      [| constructor].
    simpl. constructor; [| apply IH; lia].
    rewrite slice_take_drop by lia.
    rewrite length_take, length_drop. lia.
Qed.

Lemma lstrip_nil_iff (s : pystr) :
  lstrip s = [] <-> forallb isspace s = true.
Proof.
  induction s as [| c s IH]; simpl; [done |].
  destruct (isspace c); simpl; [done |]. split; discriminate.
Qed.

Lemma lstrip_suffix (s : pystr) :
  exists pre, s = pre ++ lstrip s /\ forallb isspace pre = true.
Proof.
  induction s as [| c s [pre [Hs Hpre]]]; simpl.
  - by exists [].
  - destruct (isspace c) eqn:Hc.
    + exists (c :: pre). simpl. rewrite Hc, Hpre. split; [by f_equal | done].
    + by exists [].
Qed.

Lemma lstrip_head (s : pystr) (c : codepoint) (s' : pystr) :
  lstrip s = c :: s' -> isspace c = false.
Proof.
  induction s as [| x s IH]; simpl; [done |].
  destruct (isspace x) eqn:Hx; [done |]. by intros [= -> ->].
Qed.

Lemma forallb_rev {A : Type} (f : A -> bool) (l : list A) :
  forallb f (rev l) = forallb f l.
Proof.
  induction l as [| x l IH]; [done |].
  simpl. rewrite forallb_app, IH. simpl. destruct (f x), (forallb f l); done.
Qed.

Lemma strip_nil_iff (s : pystr) :
  strip s = [] <-> forallb isspace s = true.
Proof.
  unfold strip, rstrip. split.
  - intros H. apply (f_equal (@rev _)) in H. rewrite rev_involutive in H.
    simpl in H. apply lstrip_nil_iff in H. rewrite forallb_rev in H.
    destruct (lstrip_suffix s) as [pre [Hs Hpre]].
    rewrite Hs, forallb_app, Hpre, H. done.
  - intros H. apply lstrip_nil_iff in H. by rewrite H.
Qed.

(** [strip] removes a whitespace prefix and a whitespace suffix, and what
    is left neither starts nor ends with whitespace. *)
Lemma strip_decompose (s : pystr) :
  exists pre suf,
    s = pre ++ strip s ++ suf
    /\ forallb isspace pre = true /\ forallb isspace suf = true
    /\ (forall c r, strip s = c :: r -> isspace c = false)
    /\ (forall c r, strip s = r ++ [c] -> isspace c = false).
Proof.
  destruct (lstrip_suffix s) as [pre [Hs Hpre]].
  destruct (lstrip_suffix (rev (lstrip s))) as [fus [Hr Hfus]].
  exists pre, (rev fus). unfold strip, rstrip.
  assert (lstrip s = rev (lstrip (rev (lstrip s))) ++ rev fus) as Hmid.
  { rewrite <- rev_app_distr, <- Hr. by rewrite rev_involutive. }
  split; [by rewrite <- Hmid |].
  split; [done |]. split; [by rewrite forallb_rev |]. split.
  - intros c r Hc. rewrite Hc in Hmid. simpl in Hmid.
    by apply lstrip_head in Hmid.
  - intros c r Hc. apply (f_equal (@rev _)) in Hc.
    rewrite rev_involutive, rev_app_distr in Hc. simpl in Hc.
    by apply lstrip_head in Hc.
Qed.

(** C2 (as amended). For every text [T] and every size [S > 0], chunking
    returns chunks whose concatenation in index order is [T] with its
    leading and trailing whitespace removed, and their number is
    [ceil (len (strip T) / S)]: positive when [T] has a non-whitespace
    character, and 0 when [T] is empty or whitespace only. Every chunk is
    non-empty and has at most [S] characters. *)
Theorem chunk_text_reconstructs_stripped (T : pystr) (S : Z) :
  0 < S ->
  exists chunks,
    _chunk_text T S = Ok chunks
    /\ concat chunks = strip T
    /\ Z.of_nat (length chunks) = ceil_div (Z.of_nat (length (strip T))) S
    /\ (forallb isspace T = true -> chunks = [])
    /\ (forallb isspace T = false -> chunks <> [])
    /\ Forall (fun c : pystr =>
                 (0 < length c)%nat /\ Z.of_nat (length c) <= S) chunks.
Proof.
  intros HS. unfold _chunk_text.
  destruct (strip T) as [| c t] eqn:Hstrip.
  - exists []. repeat split; try done.
    + unfold ceil_div. simpl. symmetry. apply Z.div_small. lia.
    + intros Hns. apply strip_nil_iff in Hstrip. congruence.
  - unfold py_range. destruct (Z.eqb_spec S 0) as [-> | _]; [lia |].
    rewrite Z.sub_0_r, Z.abs_eq by lia. rewrite Nat2Z.id.
    eexists. split; [reflexivity |].
    split; [by rewrite range_from_chunks by lia |].
    split; [| split; [| split]].
    + rewrite length_map, range_from_length by lia.
      rewrite Z.sub_0_r.
      pose proof (ceil_div_bounds (Z.of_nat (length (c :: t))) S HS). nia.
    + intros Hsp. apply strip_nil_iff in Hsp. congruence.
    + intros _ Hnil. apply (f_equal (@length _)) in Hnil.
      rewrite length_map, range_from_length in Hnil by lia.
      rewrite Z.sub_0_r in Hnil.
      pose proof (ceil_div_bounds (Z.of_nat (length (c :: t))) S HS).
      simpl length in *. nia.
    + apply range_from_pieces; lia.
Qed.

End ChunkerProofs.

(** The theorem at the text ["  abcdefg "] and size 3. *)
Lemma chunk_text_reconstructs_stripped_witness :
  0 < 3
  /\ exists chunks,
       _chunk_text (py "  abcdefg ") 3 = Ok chunks
       /\ concat chunks = strip (py "  abcdefg ")
       /\ Z.of_nat (length chunks)
          = ceil_div (Z.of_nat (length (strip (py "  abcdefg ")))) 3
       /\ (forallb isspace (py "  abcdefg ") = true -> chunks = [])
       /\ (forallb isspace (py "  abcdefg ") = false -> chunks <> [])
       /\ Forall (fun c : pystr =>
                    (0 < length c)%nat /\ Z.of_nat (length c) <= 3) chunks.
Proof.
  split; [lia |]. apply (chunk_text_reconstructs_stripped (py "  abcdefg ") 3).
  lia.
Defined.

(** C2, counterexample to the claim as stated: for the text [" a "] and size
    1 the chunks are [["a"]]; their concatenation is not the input text and
    their number is not [ceil (len T / S) = 3]. *)
Lemma chunk_text_padded_counterexample :
  _chunk_text (py " a ") 1 = Ok [py "a"]
  /\ concat [py "a"] <> py " a "
  /\ Z.of_nat (length [py "a"]) <> ceil_div (Z.of_nat (length (py " a "))) 1.
Proof. split; [reflexivity |]. split; [discriminate | discriminate]. Qed.

(** The 1700-character scenario of the spec: chunks of 800, 800 and 100
    characters. *)
Example chunk_text_1700 :
  (fun r => match r with
            | Ok cs => Some (map (@length _) cs)
            | Raise _ => None
            end) (_chunk_text (replicate 1700 97%N) CHUNK_SIZE)
  = Some [800; 800; 100]%nat.
Proof. vm_compute. reflexivity. Qed.

(** ** Message envelopes and ingestion *)

Ltac unfold_M :=
  unfold mbind, M_bind, mret, M_ret, lift, logging, print_message,
    get_agent, set_agent, make_trace_id.

Ltac run_M := unfold_M; simpl.

Section IngestionProofs.
Context `{Ext : Externals}.

Lemma send_mcp_message_run (s r t : string) (p : list (string * pyval))
    (w : World) :
  send_mcp_message s r t p None w
  = (Ok (envelope_at (uuids w) s r t p),
     {| agent := agent w;
        stdout := stdout w ++ [envelope_at (uuids w) s r t p];
        log := log w ++ [LogMcp s r t];
        uuids := S (uuids w) |}).
Proof. reflexivity. Qed.

(** At the default size the chunker never raises. *)
Lemma chunk_text_default_ok (text : pystr) :
  _chunk_text text CHUNK_SIZE = Ok (chunk_pieces text).
Proof.
  unfold chunk_pieces, _chunk_text.
  destruct (strip text); [done |]. reflexivity.
Qed.

Lemma process_document_run (file_path : pystr) (filename : option pystr)
    (w : World) :
  let fname := default (os_path_basename file_path) filename in
  process_document file_path filename w
  = (Ok (document_chunks file_path fname),
     {| agent := agent w;
        stdout := stdout w
                  ++ [document_parsed_envelope (uuids w) file_path fname];
        log := log w ++ parse_log file_path fname
               ++ [LogMcp "IngestionAgent" "RetrievalAgent" "DOCUMENT_PARSED";
                   LogParsed fname
                     (Z.of_nat (length (document_chunks file_path fname)))];
        uuids := S (uuids w) |}).
Proof.
  intros fname. unfold process_document.
  replace (match filename with
           | Some f => f
           | None => os_path_basename file_path
           end) with fname by (by destruct filename).
  unfold document_parsed_envelope, document_chunks, document_text, parse_log.
  destruct (parse_by_extension (str_lower (os_path_splitext_ext fname))
              file_path) as [text |]; run_M;
    rewrite ?chunk_text_default_ok; simpl; rewrite <- ?app_assoc;
    reflexivity.
Qed.

Lemma document_chunks_parse_fails (file_path filename : pystr) :
  parse_fails file_path filename -> document_chunks file_path filename = [].
Proof.
  unfold parse_fails, document_chunks, document_text. intros ->. reflexivity.
Qed.

Lemma document_chunks_lookup (file_path filename : pystr) (i : nat)
    (c : Chunk) :
  document_chunks file_path filename !! i = Some c ->
  chunk_pieces (document_text file_path filename) !! i = Some (chunk_text c)
  /\ exists m,
       chunk_meta c = Some m
       /\ m !! "chunk_index" = Some (MInt (Z.of_nat i))
       /\ m !! "filename" = Some (MStr filename).
Proof.
  unfold document_chunks. rewrite list_lookup_imap.
  destruct (chunk_pieces _ !! i) as [piece |]; simpl; [| done].
  intros [= <-]. simpl. split; [done |]. eexists. split; [done |].
  split; [rewrite lookup_insert_ne by done |]; by rewrite lookup_insert_eq.
Qed.

(** The effect of the ingestion loop on the process state. *)
Lemma ingest_files_run (paths : list pystr) (acc : list Chunk) (w : World) :
  exists out lg,
    ingest_files paths acc w
    = (Ok (acc ++ flat_map (fun p => document_chunks p p) paths),
       {| agent := agent w; stdout := stdout w ++ out; log := log w ++ lg;
          uuids := (uuids w + length paths)%nat |})
    /\ Forall2 (fun p e =>
                  type e = "DOCUMENT_PARSED"
                  /\ payload e
                     = [("filename", VStr p);
                        ("n_chunks",
                         VInt (Z.of_nat (length (document_chunks p p))))])
         paths out
    /\ Forall (fun r => forall n, r <> LogIndexSize n) lg
    /\ (forall p, p ∈ paths -> parse_fails p p -> LogParseError p ∈ lg).
Proof.
  revert acc w. induction paths as [| p paths IH]; intros acc w.
  - exists [], []. simpl. rewrite !app_nil_r, Nat.add_0_r.
    split; [by destruct w |]. split; [constructor |].
    split; [constructor |]. intros p Hp. by apply elem_of_nil in Hp.
  - simpl. unfold mbind at 1, M_bind at 1.
    rewrite process_document_run. simpl.
    edestruct IH as (out & lg & Hrun & Hout & Hlg & Hfail).
    rewrite Hrun. simpl.
    exists (document_parsed_envelope (uuids w) p p :: out),
      (parse_log p p
       ++ LogMcp "IngestionAgent" "RetrievalAgent" "DOCUMENT_PARSED"
          :: LogParsed p (Z.of_nat (length (document_chunks p p))) :: lg).
    split; [| split; [| split]].
    + f_equal; [by rewrite <- app_assoc |].
      f_equal; [by rewrite <- app_assoc | | lia].
      rewrite <- !app_assoc. reflexivity.
    + constructor; [done | exact Hout].
    + apply Forall_app. split.
      * unfold parse_log. destruct (parse_by_extension _ p);
          repeat constructor; done.
      * repeat constructor; done || exact Hlg.
    + intros q Hq Hq'. apply elem_of_cons in Hq as [-> | Hq].
      * apply elem_of_app. left. unfold parse_log.
        unfold parse_fails in Hq'. rewrite Hq'. apply list_elem_of_here.
      * apply elem_of_app. right. do 2 apply list_elem_of_further.
        by apply Hfail.
Qed.


(** C10. For every file path, [process_document] returns normally and
    prints exactly one envelope, of type [DOCUMENT_PARSED], from the
    ingestion agent to the retrieval agent, whose payload holds the filename
    and the number of chunks returned; when the parser raises, the envelope
    is still printed, with [n_chunks = 0], the failure is logged and the
    empty chunk list is returned. *)
Theorem process_document_emits_document_parsed
    (file_path : pystr) (filename : option pystr) (w : World) :
  let fname := default (os_path_basename file_path) filename in
  exists chunks w' e,
    process_document file_path filename w = (Ok chunks, w')
    /\ stdout w' = stdout w ++ [e]
    /\ sender e = "IngestionAgent" /\ receiver e = "RetrievalAgent"
    /\ type e = "DOCUMENT_PARSED"
    /\ payload e = [("filename", VStr fname);
                    ("n_chunks", VInt (Z.of_nat (length chunks)))]
    /\ (parse_fails file_path fname ->
        chunks = []
        /\ payload e = [("filename", VStr fname); ("n_chunks", VInt 0)]
        /\ LogParseError file_path ∈ log w').
Proof.
  intros fname.
  pose proof (process_document_run file_path filename w) as Hrun.
  simpl in Hrun. fold fname in Hrun.
  eexists _, _, (document_parsed_envelope (uuids w) file_path fname).
  split; [exact Hrun |]. simpl.
  split; [reflexivity |]. do 4 (split; [reflexivity |]).
  intros Hfail. unfold document_parsed_envelope. simpl.
  rewrite (document_chunks_parse_fails _ _ Hfail). simpl.
  split; [done |]. split; [done |].
  unfold parse_log. unfold parse_fails in Hfail. rewrite Hfail.
  apply elem_of_app. right. apply list_elem_of_here.
Qed.

End IngestionProofs.

(** ** Ranking of search hits *)

Section RankingProofs.
Context `{Ext : Externals}.

Lemma insert_ranked_perm (x : F * nat) (l : list (F * nat)) :
  insert_ranked x l ≡ₚ x :: l.
Proof.
  induction l as [| y l IH]; simpl; [done |].
  destruct (outranks x y); [done |]. rewrite IH. apply Permutation_swap.
Qed.

Lemma rank_hits_perm (l : list (F * nat)) : rank_hits l ≡ₚ l.
Proof.
  induction l as [| x l IH]; simpl; [done |].
  rewrite insert_ranked_perm. by rewrite IH.
Qed.

Lemma outranks_total (x y : F * nat) :
  outranks x y = false -> outranks y x = true.
Proof.
  unfold outranks.
  destruct (fltb y.1 x.1) eqn:Hyx; [done |].
  destruct (fltb x.1 y.1) eqn:Hxy; [done |].
  intros H. apply Nat.leb_gt in H. apply Nat.leb_le. lia.
Qed.

Lemma outranks_trans (ss : list F) (x y z : F * nat) :
  scores_strictly_ordered ss ->
  x.1 ∈ ss -> y.1 ∈ ss -> z.1 ∈ ss ->
  outranks x y = true -> outranks y z = true -> outranks x z = true.
Proof.
  intros [Hasym Hneg] Hx Hy Hz. unfold outranks.
  destruct (fltb y.1 x.1) eqn:Hyx, (fltb z.1 y.1) eqn:Hzy,
    (fltb z.1 x.1) eqn:Hzx; try done.
  - destruct (Hneg _ x.1 _ Hz Hx Hy Hzy) as [? | Hxy]; [congruence |].
    apply Hasym in Hxy; [congruence | done | done].
  - destruct (fltb y.1 z.1) eqn:Hyz; [done |].
    destruct (Hneg _ z.1 _ Hy Hz Hx Hyx); congruence.
  - destruct (fltb x.1 y.1) eqn:Hxy; [done |].
    destruct (Hneg _ x.1 _ Hz Hx Hy Hzy); congruence.
  - destruct (fltb x.1 y.1) eqn:Hxy; [done |].
    destruct (fltb y.1 z.1) eqn:Hyz; [done |].
    destruct (fltb x.1 z.1) eqn:Hxz.
    + destruct (Hneg _ y.1 _ Hx Hy Hz Hxz); congruence.
    + intros H1 H2. apply Nat.leb_le in H1, H2. apply Nat.leb_le. lia.
Qed.

Lemma insert_ranked_sorted (ss : list F) (x : F * nat)
    (l : list (F * nat)) :
  scores_strictly_ordered ss ->
  x.1 ∈ ss -> Forall (fun y : F * nat => y.1 ∈ ss) l ->
  StronglySorted ranked_before l ->
  StronglySorted ranked_before (insert_ranked x l).
Proof.
  intros Hswo Hx Hl Hsorted. induction Hsorted as [| y l Hsorted IH Hy]; simpl.
  - repeat constructor.
  - apply Forall_cons in Hl as [Hys Hl].
    destruct (outranks x y) eqn:Hxy.
    + constructor; [by constructor |]. constructor; [done |].
      apply Forall_forall. intros z Hz.
      apply (outranks_trans ss x y z); try done.
      * rewrite Forall_forall in Hl. by apply Hl.
      * rewrite Forall_forall in Hy. by apply Hy.
    + constructor; [by apply IH |]. rewrite insert_ranked_perm.
      constructor; [by apply outranks_total | done].
Qed.

Lemma rank_hits_sorted (ss : list F) (l : list (F * nat)) :
  scores_strictly_ordered ss ->
  Forall (fun y : F * nat => y.1 ∈ ss) l ->
  StronglySorted ranked_before (rank_hits l).
Proof.
  intros Hswo Hl. induction Hl as [| x l Hx Hl IH]; simpl; [constructor |].
  apply (insert_ranked_sorted ss); try done.
  by rewrite rank_hits_perm.
Qed.

Lemma scores_strictly_ordered_b_sound (ss : list F) :
  scores_strictly_ordered_b ss = true -> scores_strictly_ordered ss.
Proof.
  unfold scores_strictly_ordered_b. intros Hall.
  rewrite forallb_forall in Hall.
  assert (forall a b, a ∈ ss -> b ∈ ss ->
            implb (fltb a b) (negb (fltb b a)) = true
            /\ forall c, c ∈ ss ->
                 implb (fltb a c) (fltb a b || fltb b c) = true) as Hab.
  { intros a b Ha Hb. apply list_elem_of_In in Ha, Hb.
    specialize (Hall a Ha). rewrite forallb_forall in Hall.
    specialize (Hall b Hb). apply andb_true_iff in Hall as [H1 H2].
    split; [done |]. intros c Hc. rewrite forallb_forall in H2.
    apply H2. by apply list_elem_of_In. }
  split.
  - intros a b Ha Hb Hlt. destruct (Hab a b Ha Hb) as [H1 _].
    rewrite Hlt in H1. simpl in H1. by destruct (fltb b a).
  - intros a b c Ha Hb Hc Hlt. destruct (Hab a b Ha Hb) as [_ H2].
    specialize (H2 c Hc). rewrite Hlt in H2. simpl in H2.
    destruct (fltb a b); [by left |]. right. by destruct (fltb b c).
Qed.

Lemma StronglySorted_lookup {A : Type} (R : relation A) (l : list A)
    (i j : nat) (x y : A) :
  StronglySorted R l -> (i < j)%nat ->
  l !! i = Some x -> l !! j = Some y -> R x y.
Proof.
  intros Hl. revert i j. induction Hl as [| z l Hl IH Hz]; intros i j Hij.
  - done.
  - destruct j as [| j]; [lia |]. destruct i as [| i]; simpl.
    + intros [= ->] Hy. rewrite Forall_forall in Hz. apply Hz.
      by eapply list_elem_of_lookup_2.
    + apply IH. lia.
Qed.

(** Entries scored from the rows: ordinal [o] carries the score of row
    [o]. *)
Lemma scored_rows_elem (q : list F) (rows : list (list F)) (h : F * nat) :
  h ∈ imap (fun i v => (inner_product q v, i)) rows
  <-> exists v, rows !! h.2 = Some v /\ h.1 = inner_product q v.
Proof.
  rewrite elem_of_lookup_imap. split.
  - intros (i & v & -> & Hv). by exists v.
  - intros (v & Hv & Hs). exists h.2, v. split; [| done].
    destruct h. simpl in *. by subst.
Qed.

Lemma scored_rows_ordinals (q : list F) (rows : list (list F)) :
  (imap (fun i v => (inner_product q v, i)) rows).*2 = seq 0 (length rows).
Proof.
  rewrite fmap_imap.
  rewrite (imap_ext _ (fun i _ => i) rows) by done.
  by rewrite imap_seq_0, list_fmap_id.
Qed.

End RankingProofs.

(** ** The retrieval agent *)

Section RetrievalProofs.
Context `{Ext : Externals}.

Lemma normalize_L2_length (v : list F) :
  length (normalize_L2 v) = length v.
Proof.
  unfold normalize_L2. destruct (fltb fzero _); [| done].
  apply length_map.
Qed.

Lemma stored_rows_width (chunks : list Chunk) :
  encode_width_ok ->
  forallb (fun v : list F => Z.of_nat (length v) =? EMBED_DIM)
    (map normalize_L2 (map encode (map chunk_text chunks))) = true.
Proof.
  intros Hw. apply forallb_forall. intros v Hv.
  apply in_map_iff in Hv as (u & <- & Hu).
  apply in_map_iff in Hu as (t & <- & _).
  rewrite normalize_L2_length. apply Z.eqb_eq, Hw.
Qed.

Lemma agent_wf_index_width (a : RetrievalAgent) (ix : IndexFlatIP) :
  agent_wf a -> index a = Some ix -> d ix = EMBED_DIM.
Proof. intros [_ Hix] Hsome. rewrite Hsome in Hix. tauto. Qed.

Lemma agent_wf_sizes (a : RetrievalAgent) :
  agent_wf a ->
  length (texts a) = index_size a /\ length (metadatas a) = index_size a.
Proof.
  intros [Hm Hix]. unfold index_size.
  destruct (index a) as [ix |]; [destruct Hix |]; lia.
Qed.

Lemma agent_extended_wf (a : RetrievalAgent) (chunks : list Chunk) :
  agent_wf a -> agent_wf (agent_extended a chunks).
Proof.
  intros Hwf. destruct (agent_wf_sizes a Hwf) as [Ht Hm].
  unfold agent_wf, agent_extended, index_rows, index_size in *. simpl.
  rewrite !length_app, !length_map.
  destruct (index a); simpl in *; repeat split; lia.
Qed.

Lemma build_index_empty (w : World) :
  build_index [] w = (Raise IndexError, w).
Proof. reflexivity. Qed.

Lemma build_index_run (chunks : list Chunk) (w : World) :
  chunks <> [] -> encode_width_ok -> agent_wf (agent w) ->
  build_index chunks w
  = (Ok tt,
     {| agent := agent_extended (agent w) chunks;
        stdout := stdout w;
        log := log w
               ++ [LogIndexSize
                     (Z.of_nat (index_size (agent w) + length chunks))];
        uuids := uuids w |}).
Proof.
  intros Hne Hw Hwf. unfold build_index, index_add.
  destruct chunks as [| c0 chunks0]; [done |].
  set (chunks := c0 :: chunks0) in *.
  assert (normalize_L2_rows (map encode (map chunk_text chunks))
          = Ok (map normalize_L2 (map encode (map chunk_text chunks))))
    as Hrows by done.
  unfold_M. rewrite Hrows. cbn [agent stdout log uuids].
  set (ix0 := match index (agent w) with
              | Some ix => ix
              | None => _
              end).
  assert (d ix0 = EMBED_DIM) as Hd.
  { subst ix0. destruct (index (agent w)) eqn:Hix; [| done].
    by apply (agent_wf_index_width (agent w)). }
  rewrite Hd, stored_rows_width by done.
  unfold agent_extended, index_rows, index_size, ntotal, stored_row.
  cbn [xb d]. rewrite !map_map. rewrite length_app, length_map.
  subst ix0. by destruct (index (agent w)).
Qed.

(** The agent after any sequence of [build_index] calls: a call on an empty
    batch raises and changes nothing, every other call appends its batch. *)
Lemma after_build_index_calls_run (batches : list (list Chunk)) (w : World) :
  encode_width_ok -> agent_wf (agent w) ->
  agent_wf (agent (after_build_index_calls batches w))
  /\ index_rows (agent (after_build_index_calls batches w))
     = index_rows (agent w) ++ map stored_row (concat batches)
  /\ metadatas (agent (after_build_index_calls batches w))
     = metadatas (agent w) ++ map chunk_get_meta (concat batches)
  /\ texts (agent (after_build_index_calls batches w))
     = texts (agent w) ++ map chunk_text (concat batches)
  /\ stdout (after_build_index_calls batches w) = stdout w.
Proof.
  intros Hw. revert w. induction batches as [| chunks batches IH];
    intros w Hwf.
  - simpl. by rewrite !app_nil_r.
  - cbn [after_build_index_calls concat].
    destruct chunks as [| c0 chunks0].
    + rewrite build_index_empty. cbn [snd app]. by apply IH.
    + rewrite build_index_run by done. cbn [snd].
      edestruct (IH {| agent := agent_extended (agent w) (c0 :: chunks0);
                       stdout := stdout w;
                       log := log w
                              ++ [LogIndexSize
                                    (Z.of_nat
                                       (index_size (agent w)
                                        + length (c0 :: chunks0)))];
                       uuids := uuids w |})
        as (Hwf' & Hrows & Hmeta & Htexts & Hout).
      { by apply agent_extended_wf. }
      split; [done |]. rewrite Hrows, Hmeta, Htexts, Hout.
      cbn [agent agent_extended index_rows index xb metadatas texts stdout].
      by rewrite !map_app, !app_assoc.
Qed.

Lemma index_search_hits (a : RetrievalAgent) (ix : IndexFlatIP)
    (q : list F) (k : Z) :
  index a = Some ix -> Z.of_nat (length q) = d ix ->
  index_search ix q k
  = Ok (map (fun h : F * nat => (h.1, Z.of_nat h.2)) (search_hits a q k)
        ++ replicate (Z.to_nat k - length (search_hits a q k)) (fpad, -1)).
Proof.
  intros Hix Hq. unfold index_search, search_hits, index_rows, scored_entries.
  rewrite Hix. by apply Z.eqb_eq in Hq as ->.
Qed.

Lemma collect_results_padding (a : RetrievalAgent) (n : nat)
    (acc : list RetrievalResult) :
  collect_results a (replicate n (fpad, -1)) acc = Ok acc.
Proof. induction n as [| n IH]; [done |]. simpl. exact IH. Qed.

Lemma collect_results_hits (a : RetrievalAgent) (hits : list (F * nat))
    (rest : list (F * Z)) (acc : list RetrievalResult) :
  Forall (fun h : F * nat => (h.2 < length (texts a))%nat
                             /\ (h.2 < length (metadatas a))%nat) hits ->
  exists rs,
    collect_results a
      (map (fun h : F * nat => (h.1, Z.of_nat h.2)) hits ++ rest) acc
    = collect_results a rest (acc ++ rs)
    /\ Forall2 (fun h r => result_at a h.1 h.2 = Some r) hits rs.
Proof.
  intros Hhits. revert acc.
  induction Hhits as [| [s o] hits [Ht Hm] _ IH]; intros acc.
  - exists []. rewrite app_nil_r. split; [done | constructor].
  - simpl in *. destruct (Z.ltb_spec (Z.of_nat o) 0) as [? | _]; [lia |].
    rewrite Nat2Z.id.
    apply lookup_lt_is_Some_2 in Ht as [t Ht], Hm as [m Hm].
    rewrite Ht, Hm.
    destruct (IH (acc ++ [{| score := s; meta := m; text := t |}]))
      as (rs & Hrun & Hrs).
    exists ({| score := s; meta := m; text := t |} :: rs).
    split; [by rewrite Hrun, <- app_assoc |].
    constructor; [| done]. unfold result_at. simpl. by rewrite Ht, Hm.
Qed.

Lemma search_hits_elem (a : RetrievalAgent) (q : list F) (k : Z)
    (h : F * nat) :
  h ∈ search_hits a q k ->
  exists v, index_rows a !! h.2 = Some v /\ h.1 = inner_product q v.
Proof.
  intros Hh. apply subseteq_take in Hh. rewrite rank_hits_perm in Hh.
  by apply scored_rows_elem.
Qed.

Lemma search_hits_length (a : RetrievalAgent) (q : list F) (k : Z) :
  length (search_hits a q k) = Nat.min (Z.to_nat k) (index_size a).
Proof.
  unfold search_hits. rewrite length_take, rank_hits_perm, length_imap.
  unfold index_rows, index_size. by destruct (index a).
Qed.

Lemma search_hits_nodup (a : RetrievalAgent) (q : list F) (k : Z) :
  NoDup (search_hits a q k).*2.
Proof.
  unfold search_hits. rewrite fmap_take.
  eapply sublist_NoDup; [| apply sublist_take].
  rewrite rank_hits_perm, scored_rows_ordinals. apply NoDup_seq.
Qed.

(** What [retrieve] returns on a well-formed agent: one result per search
    hit, in order, and the process state is left as it was. *)
Lemma retrieve_run (query : pystr) (k : Z) (w : World) :
  Z.of_nat (length (encode query)) = EMBED_DIM -> agent_wf (agent w) ->
  exists rs,
    retrieve query k w = (Ok rs, w)
    /\ Forall2 (fun h r => result_at (agent w) h.1 h.2 = Some r)
         (search_hits (agent w) (normalize_L2 (encode query)) k) rs.
Proof.
  intros Hq Hwf. unfold retrieve. run_M.
  destruct (index (agent w)) as [ix |] eqn:Hix.
  - destruct (Z.eqb_spec (ntotal ix) 0) as [H0 | Hn0].
    + exists []. split; [done |]. unfold search_hits, index_rows.
      rewrite Hix. unfold ntotal in H0.
      destruct (xb ix); [| simpl in H0; lia].
      simpl. rewrite take_nil. constructor.
    + rewrite (index_search_hits (agent w)); try done.
      2:{ rewrite normalize_L2_length, Hq. symmetry.
          by apply (agent_wf_index_width (agent w)). }
      destruct (collect_results_hits (agent w)
                  (search_hits (agent w) (normalize_L2 (encode query)) k)
                  (replicate
                     (Z.to_nat k
                      - length (search_hits (agent w)
                                  (normalize_L2 (encode query)) k))
                     (fpad, -1)) []) as (rs & Hrun & Hrs).
      { apply Forall_forall. intros h Hh.
        apply search_hits_elem in Hh as (v & Hv & _).
        apply lookup_lt_Some in Hv.
        destruct (agent_wf_sizes _ Hwf) as [-> ->].
        unfold index_rows, index_size in *. rewrite Hix in *. lia. }
      exists rs. simpl. rewrite Hrun, collect_results_padding. done.
  - exists []. split; [done |]. unfold search_hits, index_rows.
    rewrite Hix. simpl. rewrite take_nil. constructor.
Qed.

End RetrievalProofs.

Section RetrievalClaims.
Context `{Ext : Externals}.

Lemma retrieve_keeps_world (query : pystr) (k : Z) (w : World) :
  (retrieve query k w).2 = w.
Proof.
  unfold retrieve. run_M. destruct (index (agent w)) as [ix |]; [| done].
  destruct (ntotal ix =? 0); [done |].
  destruct (index_search ix _ k) as [hits |]; [| done].
  by destruct (collect_results (agent w) hits []).
Qed.

Lemma length_concat_sum {A : Type} (ls : list (list A)) :
  length (concat ls) = sum_list (length <$> ls).
Proof.
  induction ls as [| l ls IH]; [done |].
  simpl. by rewrite length_app, IH.
Qed.

Lemma initial_agent_wf : agent_wf RetrievalAgent_init.
Proof. by split. Qed.

(** C5. Starting from a fresh agent, after any sequence of [build_index]
    calls the index holds as many entries as chunks were submitted over all
    calls (duplicates included), and [texts] and [metadatas] have that same
    length. A call on an empty batch raises [IndexError] and changes
    nothing; every other call returns. A search does not change the state,
    and further [build_index] calls only append: the rows, texts and
    metadatas held before are a prefix of those held afterwards, so no entry
    is removed, changed or moved to another ordinal. *)
Theorem build_index_append_only (batches : list (list Chunk)) (w : World) :
  encode_width_ok -> agent w = RetrievalAgent_init ->
  let w' := after_build_index_calls batches w in
  index_size (agent w') = sum_list (length <$> batches)
  /\ length (texts (agent w')) = sum_list (length <$> batches)
  /\ length (metadatas (agent w')) = sum_list (length <$> batches)
  /\ (forall query k, (retrieve query k w').2 = w')
  /\ build_index [] w' = (Raise IndexError, w')
  /\ (forall chunks, chunks <> [] -> (build_index chunks w').1 = Ok tt)
  /\ forall more : list (list Chunk),
       let w'' := after_build_index_calls more w' in
       index_rows (agent w') `prefix_of` index_rows (agent w'')
       /\ texts (agent w') `prefix_of` texts (agent w'')
       /\ metadatas (agent w') `prefix_of` metadatas (agent w'')
       /\ index_size (agent w'')
          = (index_size (agent w') + sum_list (length <$> more))%nat.
Proof.
  intros Hw Hinit w'.
  destruct (after_build_index_calls_run batches w Hw)
    as (Hwf & Hrows & Hmeta & Htexts & _).
  { rewrite Hinit. apply initial_agent_wf. }
  fold w' in Hwf, Hrows, Hmeta, Htexts.
  rewrite Hinit in Hrows, Hmeta, Htexts. simpl in Hrows, Hmeta, Htexts.
  destruct (agent_wf_sizes _ Hwf) as [Ht Hm].
  assert (length (texts (agent w')) = sum_list (length <$> batches)) as Hlen.
  { by rewrite Htexts, length_map, length_concat_sum. }
  split; [lia |]. split; [done |]. split; [lia |].
  split; [intros; apply retrieve_keeps_world |].
  split; [apply build_index_empty |].
  split; [intros chunks Hne; by rewrite build_index_run |].
  intros more w''.
  destruct (after_build_index_calls_run more w' Hw Hwf)
    as (Hwf' & Hrows' & Hmeta' & Htexts' & _).
  fold w'' in Hwf', Hrows', Hmeta', Htexts'.
  rewrite Hrows', Hmeta', Htexts'.
  do 3 (split; [by eexists |]).
  destruct (agent_wf_sizes _ Hwf') as [Ht' _].
  rewrite <- Ht', <- Ht, Htexts', length_app, length_map.
  by rewrite length_concat_sum.
Qed.

(** C4. After any sequence of [build_index] calls on a fresh agent (a call
    on an empty batch raises and stores nothing), a query succeeds and every
    result it returns carries, next to the score of the row stored at its
    ordinal, exactly the text of the chunk that was submitted at that
    ordinal, counting chunks in submission order across all calls, and that
    chunk's meta: the dict under its ["meta"] key, or the empty dict when
    the chunk has no such key. The texts and metadatas held by the agent are
    those of the submitted chunks, in submission order. *)
Theorem retrieval_round_trip (batches : list (list Chunk)) (query : pystr)
    (k : Z) (w : World) :
  encode_width_ok -> agent w = RetrievalAgent_init ->
  let w1 := after_build_index_calls batches w in
  exists rs,
    retrieve query k w1 = (Ok rs, w1)
    /\ texts (agent w1) = map chunk_text (concat batches)
    /\ Forall2 meta_stored_for (concat batches) (metadatas (agent w1))
    /\ Forall2
         (fun (h : F * nat) (r : RetrievalResult) =>
            exists c,
              concat batches !! h.2 = Some c
              /\ h.1 = inner_product (normalize_L2 (encode query))
                         (normalize_L2 (encode (chunk_text c)))
              /\ score r = h.1
              /\ text r = chunk_text c
              /\ match chunk_meta c with
                 | Some m => meta r = m
                 | None => meta r = ∅
                 end)
         (search_hits (agent w1) (normalize_L2 (encode query)) k) rs.
Proof.
  intros Hw Hinit w1.
  destruct (after_build_index_calls_run batches w Hw)
    as (Hwf & Hrows & Hmeta & Htexts & _).
  { rewrite Hinit. apply initial_agent_wf. }
  fold w1 in Hwf, Hrows, Hmeta, Htexts.
  rewrite Hinit in Hrows, Hmeta, Htexts. simpl in Hrows, Hmeta, Htexts.
  destruct (retrieve_run query k w1 (Hw query) Hwf) as (rs & Hret & Hrs).
  exists rs. split; [exact Hret |]. split; [done |]. split.
  { rewrite Hmeta. apply Forall2_fmap_r, Forall_Forall2_diag, Forall_forall.
    intros c _. unfold meta_stored_for, chunk_get_meta, compose.
    by destruct (chunk_meta c). }
  apply Forall2_same_length_lookup.
  split; [by eapply Forall2_length |].
  intros i h r Hh Hr.
  pose proof (Forall2_lookup_lr _ _ _ _ _ _ Hrs Hh Hr) as Hat.
  apply list_elem_of_lookup_2, search_hits_elem in Hh as (v & Hv & Hs).
  unfold result_at in Hat. rewrite Hmeta, Htexts in Hat.
  rewrite Hrows in Hv. rewrite !list_lookup_fmap in Hat.
  rewrite list_lookup_fmap in Hv.
  destruct (concat batches !! h.2) as [c |]; simpl in *; [| done].
  exists c. split; [done |]. injection Hv as <-. injection Hat as <-.
  cbn [score text meta]. do 3 (split; [done |]).
  unfold chunk_get_meta. by destruct (chunk_meta c).
Qed.

(** C1. On an index that holds no entry, or that was never built, a search
    returns the empty list and raises nothing. On every well-formed agent
    holding [N] entries and for every [k >= 0], a search returns
    [min k N] results, one per selected ordinal, each carrying the inner
    product of the query with the row stored at its ordinal, and no ordinal
    is returned twice. Whenever the float comparison orders the scores of
    the stored rows (none of them is a NaN), the results are in descending
    order of score, equal scores being listed by ascending ordinal, and
    every entry left out is ranked after every entry returned. *)
Theorem retrieve_top_k :
  (forall (query : pystr) (k : Z) (w : World),
     index_size (agent w) = 0%nat -> retrieve query k w = (Ok [], w))
  /\ (forall (query : pystr) (k : Z) (w : World),
        Z.of_nat (length (encode query)) = EMBED_DIM ->
        agent_wf (agent w) -> 0 <= k ->
        let q := normalize_L2 (encode query) in
        let hits := search_hits (agent w) q k in
        exists rs,
          retrieve query k w = (Ok rs, w)
          /\ length rs = Nat.min (Z.to_nat k) (index_size (agent w))
          /\ Forall2 (fun h r => result_at (agent w) h.1 h.2 = Some r
                                 /\ score r = h.1) hits rs
          /\ (forall h, h ∈ hits ->
                exists v, index_rows (agent w) !! h.2 = Some v
                          /\ h.1 = inner_product q v)
          /\ NoDup hits.*2
          /\ (scores_strictly_ordered (query_scores (agent w) q) ->
              (forall i j ri rj,
                 (i < j)%nat -> rs !! i = Some ri -> rs !! j = Some rj ->
                 fltb (score ri) (score rj) = false)
              /\ (forall i j hi hj,
                    (i < j)%nat ->
                    hits !! i = Some hi -> hits !! j = Some hj ->
                    fltb hi.1 hj.1 = false
                    /\ (fltb hj.1 hi.1 = false -> (hi.2 < hj.2)%nat))
              /\ (forall o v,
                    index_rows (agent w) !! o = Some v -> o ∉ hits.*2 ->
                    forall h, h ∈ hits ->
                              ranked_before h (inner_product q v, o)))).
Proof.
  split.
  - intros query k w H0. unfold retrieve. run_M. unfold index_size in H0.
    destruct (index (agent w)) as [ix |]; [| done].
    unfold ntotal. by rewrite H0.
  - intros query k w Hq Hwf Hk q hits.
    destruct (retrieve_run query k w Hq Hwf) as (rs & Hret & Hrs).
    fold q in Hrs. fold hits in Hrs.
    exists rs. split; [done |].
    split.
    { rewrite <- (Forall2_length _ _ _ Hrs). apply search_hits_length. }
    split.
    { eapply Forall2_impl; [exact Hrs |]. intros h r Hat. split; [done |].
      unfold result_at in Hat.
      destruct (metadatas (agent w) !! h.2), (texts (agent w) !! h.2);
        try done. by injection Hat as <-. }
    split; [intros h Hh; by apply search_hits_elem in Hh |].
    split; [apply search_hits_nodup |].
    intros Hswo.
    assert (Forall (fun y : F * nat => y.1 ∈ query_scores (agent w) q)
              (imap (fun i v => (inner_product q v, i))
                 (index_rows (agent w)))) as Hscores.
    { apply Forall_forall. intros y Hy.
      apply scored_rows_elem in Hy as (v & Hv & ->).
      unfold query_scores. apply list_elem_of_fmap. exists v.
      split; [done |]. by eapply list_elem_of_lookup_2. }
    assert (forall h, h ∈ hits -> h.1 ∈ query_scores (agent w) q) as Hin.
    { intros h Hh. apply subseteq_take in Hh. rewrite rank_hits_perm in Hh.
      rewrite Forall_forall in Hscores. by apply Hscores. }
    assert (StronglySorted ranked_before hits) as Hsorted.
    { unfold hits, search_hits.
      eapply StronglySorted_app_1_l. rewrite take_drop.
      by apply (rank_hits_sorted (query_scores (agent w) q)). }
    assert (forall i j hi hj,
              (i < j)%nat -> hits !! i = Some hi -> hits !! j = Some hj ->
              fltb hi.1 hj.1 = false
              /\ (fltb hj.1 hi.1 = false -> (hi.2 < hj.2)%nat)) as Hord.
    { intros i j hi hj Hij Hi Hj.
      pose proof (StronglySorted_lookup _ _ _ _ _ _ Hsorted Hij Hi Hj) as Hr.
      assert (hi.2 <> hj.2) as Hne.
      { intros Heq. pose proof (search_hits_nodup (agent w) q k) as Hnd.
        fold hits in Hnd.
        assert (i = j); [| lia].
        eapply NoDup_lookup; [exact Hnd | |];
          rewrite list_lookup_fmap; [by rewrite Hi | by rewrite Hj, Heq]. }
      unfold ranked_before, outranks in Hr.
      destruct (fltb hj.1 hi.1) eqn:Hji.
      - split; [| done].
        apply (proj1 Hswo hj.1 hi.1); [| | done];
          apply Hin; by eapply list_elem_of_lookup_2.
      - destruct (fltb hi.1 hj.1); [done |]. split; [done |].
        intros _. apply Nat.leb_le in Hr. lia. }
    split.
    { intros i j ri rj Hij Hi Hj.
      destruct (Forall2_lookup_r _ _ _ _ _ Hrs Hi) as (hi & Hhi & Hati).
      destruct (Forall2_lookup_r _ _ _ _ _ Hrs Hj) as (hj & Hhj & Hatj).
      destruct (Hord i j hi hj Hij Hhi Hhj) as [Hlt _].
      unfold result_at in Hati, Hatj.
      destruct (metadatas (agent w) !! hi.2), (texts (agent w) !! hi.2),
        (metadatas (agent w) !! hj.2), (texts (agent w) !! hj.2);
        try done.
      injection Hati as <-. injection Hatj as <-. done. }
    split; [exact Hord |].
    intros o v Hv Hout h Hh.
    assert ((inner_product q v, o)
            ∈ rank_hits (imap (fun i u => (inner_product q u, i))
                           (index_rows (agent w)))) as Hmem.
    { rewrite rank_hits_perm. apply scored_rows_elem. by exists v. }
    rewrite <- (take_drop (Z.to_nat k)) in Hmem.
    apply elem_of_app in Hmem as [Hmem | Hmem].
    { exfalso. apply Hout. apply list_elem_of_fmap.
      by exists (inner_product q v, o). }
    eapply (StronglySorted_app_1_elem_of ranked_before
              (take (Z.to_nat k) _) (drop (Z.to_nat k) _));
      [| exact Hh | exact Hmem].
    rewrite take_drop.
    by apply (rank_hits_sorted (query_scores (agent w) q)).
Qed.

(** C7. The index rejects every query vector whose width differs from its
    own: [index_search] raises [DimensionMismatch] whatever the index holds.
    Through [retrieve], on an index that holds entries, a query whose
    embedding has another width than the index makes the search raise
    [DimensionMismatch], and the process state, the index contents
    included, is left exactly as it was; [handle_query] passes the error on
    without printing an envelope. *)
Theorem search_rejects_wrong_width :
  (forall (ix : IndexFlatIP) (q : list F) (k : Z),
     Z.of_nat (length q) <> d ix ->
     index_search ix q k = Raise DimensionMismatch)
  /\ (forall (query : pystr) (k : Z) (w : World) (ix : IndexFlatIP),
        index (agent w) = Some ix -> ntotal ix <> 0 ->
        Z.of_nat (length (encode query)) <> d ix ->
        retrieve query k w = (Raise DimensionMismatch, w)
        /\ handle_query query k w = (Raise DimensionMismatch, w)).
Proof.
  split.
  - intros ix q k Hq. unfold index_search.
    by destruct (Z.eqb_spec (Z.of_nat (length q)) (d ix)).
  - intros query k w ix Hix Hn Hq.
    assert (retrieve query k w = (Raise DimensionMismatch, w)) as Hret.
    { unfold retrieve. run_M. rewrite Hix.
      destruct (Z.eqb_spec (ntotal ix) 0) as [? | _]; [done |].
      unfold index_search. rewrite normalize_L2_length.
      by destruct (Z.eqb_spec (Z.of_nat (length (encode query))) (d ix)). }
    split; [done |]. unfold handle_query. unfold mbind at 1, M_bind at 1.
    by rewrite Hret.
Qed.

End RetrievalClaims.

(** ** The answer stage and the coordinator *)

Section PipelineProofs.
Context `{Ext : Externals}.

(** [call_llm] always returns, touching nothing but the log, where it
    never reports an index size. *)
Lemma call_llm_run (prompt : pystr) (retrieved : list RetrievalResult)
    (max_tokens : Z) (w : World) :
  exists resp lg,
    call_llm prompt retrieved max_tokens w
    = (Ok resp, {| agent := agent w; stdout := stdout w; log := log w ++ lg;
                   uuids := uuids w |})
    /\ Forall (fun r => forall n, r <> LogIndexSize n) lg.
Proof.
  unfold call_llm.
  destruct GROQ_API_KEY as [[| c key] |].
  - destruct retrieved; eexists _, [LogNoApiKey];
      (split; [reflexivity | by repeat constructor]).
  - destruct (try_backend (c :: key) prompt max_tokens) as [msg | resp].
    + eexists _, [LogLlmFailed msg].
      split; [reflexivity | by repeat constructor].
    + exists resp, []. split; [| constructor].
      run_M. rewrite app_nil_r. by destruct w.
  - destruct retrieved; eexists _, [LogNoApiKey];
      (split; [reflexivity | by repeat constructor]).
Qed.

Lemma answer_query_run (query : pystr) (retrieved : list RetrievalResult)
    (w : World) :
  exists resp lg,
    call_llm (format_prompt query retrieved) retrieved 512
      {| agent := agent w; stdout := stdout w;
         log := log w
                ++ [LogPromptLen
                      (Z.of_nat (length (format_prompt query retrieved)))];
         uuids := uuids w |}
    = (Ok resp,
       {| agent := agent w; stdout := stdout w;
          log := (log w
                  ++ [LogPromptLen
                        (Z.of_nat (length (format_prompt query retrieved)))])
                 ++ lg;
          uuids := uuids w |})
    /\ Forall (fun r => forall n, r <> LogIndexSize n) lg
    /\ answer_query query retrieved w
       = (Ok {| answer := llm_answer resp; retrieved := retrieved |},
          {| agent := agent w;
             stdout := stdout w
                       ++ [envelope_at (uuids w) "LLMResponseAgent" "UI"
                             "FINAL_RESPONSE"
                             [("query", VStr query);
                              ("answer", VJson (llm_answer resp));
                              ("retrieved", VResults retrieved);
                              ("llm_raw", match llm_raw resp with
                                          | Some j => VJson j
                                          | None => VNone
                                          end)]];
             log := log w
                    ++ LogPromptLen
                         (Z.of_nat (length (format_prompt query retrieved)))
                       :: lg ++ [LogMcp "LLMResponseAgent" "UI"
                                   "FINAL_RESPONSE"];
             uuids := S (uuids w) |}).
Proof.
  destruct (call_llm_run (format_prompt query retrieved) retrieved 512
              {| agent := agent w; stdout := stdout w;
                 log := log w
                        ++ [LogPromptLen
                              (Z.of_nat
                                 (length (format_prompt query retrieved)))];
                 uuids := uuids w |}) as (resp & lg & Hcall & Hlg).
  cbn [agent stdout log uuids] in Hcall.
  exists resp, lg. split; [exact Hcall |]. split; [done |].
  unfold answer_query. unfold_M. rewrite Hcall, send_mcp_message_run.
  cbn [agent stdout log uuids]. f_equal. f_equal.
  by rewrite <- !app_assoc.
Qed.

(** C8. For every query and every retrieved list the answer stage returns
    normally with an answer and the retrieved list it was given, and prints
    the [FINAL_RESPONSE] envelope carrying that answer. When an API key is
    set and the backend call fails or times out, the answer is the error
    message labelled ["[LLM error] "]; when no API key is set and the
    retrieved list is empty, the answer is the fixed message
    ["(Stub Answer) No relevant context found."]. *)
Theorem answer_query_always_answers (query : pystr)
    (retrieved_ : list RetrievalResult) (w : World) :
  exists ans w' e,
    answer_query query retrieved_ w
    = (Ok {| answer := ans; retrieved := retrieved_ |}, w')
    /\ stdout w' = stdout w ++ [e]
    /\ type e = "FINAL_RESPONSE"
    /\ (exists raw, payload e = [("query", VStr query);
                                 ("answer", VJson ans);
                                 ("retrieved", VResults retrieved_);
                                 ("llm_raw", raw)])
    /\ agent w' = agent w
    /\ (forall c key msg,
          GROQ_API_KEY = Some (c :: key) ->
          requests_post GROQ_API_URL (c :: key)
            (format_prompt query retrieved_) 512 = HttpFailed msg ->
          ans = JStr (py "[LLM error] " ++ msg))
    /\ (GROQ_API_KEY = None \/ GROQ_API_KEY = Some [] ->
        retrieved_ = [] ->
        ans = JStr (py "(Stub Answer) No relevant context found.")).
Proof.
  destruct (answer_query_run query retrieved_ w)
    as (resp & lg & Hcall & _ & Hrun).
  eexists _, _, _. split; [exact Hrun |]. simpl.
  split; [reflexivity |]. split; [reflexivity |].
  split; [by eexists |]. split; [reflexivity |].
  unfold call_llm in Hcall. split.
  - intros c key msg Hkey Hpost. rewrite Hkey in Hcall.
    unfold try_backend in Hcall. rewrite Hpost in Hcall.
    revert Hcall. run_M. by intros [= <- _].
  - intros Hkey ->. revert Hcall.
    destruct Hkey as [-> | ->]; run_M; by intros [= <- _].
Qed.

Lemma handle_query_run (query : pystr) (k : Z) (w : World) :
  encode_width_ok -> agent_wf (agent w) ->
  exists rs,
    retrieve query k w = (Ok rs, w)
    /\ handle_query query k w
       = (Ok rs,
          {| agent := agent w;
             stdout := stdout w
                       ++ [envelope_at (uuids w) "RetrievalAgent"
                             "LLMResponseAgent" "RETRIEVAL_RESULT"
                             [("retrieved_context", VResults rs);
                              ("query", VStr query)]];
             log := log w ++ [LogMcp "RetrievalAgent" "LLMResponseAgent"
                                "RETRIEVAL_RESULT"];
             uuids := S (uuids w) |}).
Proof.
  intros Hw Hwf.
  destruct (retrieve_run query k w (Hw query) Hwf) as (rs & Hret & _).
  exists rs. split; [done |]. unfold handle_query.
  unfold mbind at 1, M_bind at 1. rewrite Hret.
  unfold mbind at 1, M_bind at 1. by rewrite send_mcp_message_run.
Qed.

End PipelineProofs.

Section CoordinatorProofs.
Context `{Ext : Externals}.

(** A complete run of the coordinator on a well-formed agent. *)
Lemma handle_uploads_and_query_run (paths : list pystr) (query : pystr)
    (w : World) :
  encode_width_ok -> agent_wf (agent w) ->
  exists docs lg_ingest e_retrieval e_final lg_rest resp w',
    handle_uploads_and_query paths query w = (Ok resp, w')
    /\ agent w' = agent_after_indexing (agent w) (accumulated_chunks paths)
    /\ stdout w'
       = stdout w ++ docs
         ++ [build_index_envelope (uuids w + length paths)
               (accumulated_chunks paths);
             e_retrieval; e_final]
    /\ log w'
       = log w ++ lg_ingest
         ++ [LogMcp "CoordinatorAgent" "RetrievalAgent" "BUILD_INDEX"]
         ++ index_log (agent w) (accumulated_chunks paths) ++ lg_rest
    /\ Forall (fun e => type e = "DOCUMENT_PARSED") docs
    /\ type e_retrieval = "RETRIEVAL_RESULT"
    /\ type e_final = "FINAL_RESPONSE"
    /\ Forall (fun r => forall n, r <> LogIndexSize n) lg_ingest
    /\ Forall (fun r => forall n, r <> LogIndexSize n) lg_rest
    /\ (forall p, p ∈ paths -> parse_fails p p ->
                  LogParseError p ∈ lg_ingest)
    /\ exists w2,
         ingest_files paths [] w = (Ok (accumulated_chunks paths), w2).
Proof.
  intros Hw Hwf.
  destruct (ingest_files_run paths [] w)
    as (docs & lg_ingest & Hingest & Hdocs & Hlg & Hfail).
  simpl in Hingest. fold (accumulated_chunks paths) in Hingest.
  set (chunks := accumulated_chunks paths) in *.
  set (w1 := {| agent := agent w; stdout := stdout w ++ docs;
                log := log w ++ lg_ingest;
                uuids := (uuids w + length paths)%nat |}) in *.
  set (w2 := {| agent := agent w1;
                stdout := stdout w1
                          ++ [build_index_envelope (uuids w1) chunks];
                log := log w1 ++ [LogMcp "CoordinatorAgent" "RetrievalAgent"
                                    "BUILD_INDEX"];
                uuids := S (uuids w1) |}).
  set (w3 := {| agent := agent_after_indexing (agent w) chunks;
                stdout := stdout w2;
                log := log w2 ++ index_log (agent w) chunks;
                uuids := uuids w2 |}).
  assert (match chunks with
          | _ :: _ => index_chunks chunks
          | [] => mret tt
          end w2 = (Ok tt, w3)) as Hindex.
  { subst w3. unfold agent_after_indexing, index_log.
    destruct chunks as [| c chunks'] eqn:Hchunks.
    - unfold_M. rewrite app_nil_r. reflexivity.
    - unfold index_chunks. rewrite build_index_run by done. reflexivity. }
  assert (agent_wf (agent w3)) as Hwf3.
  { subst w3. simpl. unfold agent_after_indexing.
    destruct chunks; [done | by apply agent_extended_wf]. }
  destruct (handle_query_run query 5 w3 Hw Hwf3) as (rs & _ & Hquery).
  set (w4 := {| agent := agent w3;
                stdout := stdout w3
                          ++ [envelope_at (uuids w3) "RetrievalAgent"
                                "LLMResponseAgent" "RETRIEVAL_RESULT"
                                [("retrieved_context", VResults rs);
                                 ("query", VStr query)]];
                log := log w3 ++ [LogMcp "RetrievalAgent" "LLMResponseAgent"
                                    "RETRIEVAL_RESULT"];
                uuids := S (uuids w3) |}) in *.
  destruct (answer_query_run query rs w4) as (resp & lg & _ & Hlg' & Hanswer).
  eexists docs, lg_ingest, _, _,
    (LogMcp "RetrievalAgent" "LLMResponseAgent" "RETRIEVAL_RESULT"
     :: LogPromptLen (Z.of_nat (length (format_prompt query rs)))
     :: lg ++ [LogMcp "LLMResponseAgent" "UI" "FINAL_RESPONSE"]), _, _.
  split.
  { unfold handle_uploads_and_query. unfold mbind at 1, M_bind at 1.
    rewrite Hingest. unfold mbind at 1, M_bind at 1.
    rewrite send_mcp_message_run. fold (build_index_envelope (uuids w1) chunks).
    fold w2. unfold mbind at 1, M_bind at 1. rewrite Hindex.
    unfold mbind at 1, M_bind at 1. rewrite Hquery.
    unfold mbind at 1, M_bind at 1. rewrite Hanswer. reflexivity. }
  cbn [agent stdout log uuids]. subst w4 w3 w2 w1.
  cbn [agent stdout log uuids].
  split; [done |]. split; [by rewrite <- !app_assoc |].
  split; [by rewrite <- !app_assoc |].
  split.
  { eapply Forall_forall. intros e He.
    apply list_elem_of_lookup in He as [i He].
    destruct (Forall2_lookup_r _ _ _ _ _ Hdocs He) as (p & _ & Hty & _).
    done. }
  split; [done |]. split; [done |]. split; [done |].
  split.
  { repeat (constructor; [done |]). apply Forall_app. split; [done |].
    by repeat constructor. }
  split; [done |]. by eexists.
Qed.

(** C3 (as amended). In every run of the coordinator on a well-formed
    agent, exactly one [BUILD_INDEX] envelope is printed, after the
    [DOCUMENT_PARSED] envelopes of ingestion and before the
    [RETRIEVAL_RESULT] envelope, and its payload is [n_chunks], the number of
    accumulated chunks, zero included. [build_index] is called after that
    envelope, with the whole accumulated sequence, exactly when the sequence
    is non-empty: then the agent is extended by all accumulated chunks and
    the index size is logged once, right after the envelope's log line;
    when the sequence is empty the agent is left as it was and no index
    size is logged. *)
Theorem build_index_envelope_always_emitted (paths : list pystr)
    (query : pystr) (w : World) :
  encode_width_ok -> agent_wf (agent w) ->
  let chunks := accumulated_chunks paths in
  exists docs e_build e_retrieval e_final lg_ingest lg_rest resp w' w1,
    ingest_files paths [] w = (Ok chunks, w1)
    /\ handle_uploads_and_query paths query w = (Ok resp, w')
    /\ stdout w' = stdout w ++ docs ++ [e_build; e_retrieval; e_final]
    /\ Forall (fun e => type e = "DOCUMENT_PARSED") docs
    /\ type e_retrieval = "RETRIEVAL_RESULT"
    /\ type e_final = "FINAL_RESPONSE"
    /\ sender e_build = "CoordinatorAgent"
    /\ receiver e_build = "RetrievalAgent"
    /\ type e_build = "BUILD_INDEX"
    /\ payload e_build = [("n_chunks", VInt (Z.of_nat (length chunks)))]
    /\ log w'
       = log w ++ lg_ingest
         ++ [LogMcp "CoordinatorAgent" "RetrievalAgent" "BUILD_INDEX"]
         ++ index_log (agent w) chunks ++ lg_rest
    /\ Forall (fun r => forall n, r <> LogIndexSize n) lg_ingest
    /\ Forall (fun r => forall n, r <> LogIndexSize n) lg_rest
    /\ (chunks = [] ->
        agent w' = agent w /\ index_log (agent w) chunks = [])
    /\ (chunks <> [] ->
        agent w' = agent_extended (agent w) chunks
        /\ index_log (agent w) chunks
           = [LogIndexSize
                (Z.of_nat (index_size (agent w) + length chunks))]).
Proof.
  intros Hw Hwf chunks.
  destruct (handle_uploads_and_query_run paths query w Hw Hwf)
    as (docs & lg_ingest & e_retrieval & e_final & lg_rest & resp & w'
        & Hrun & Hagent & Hout & Hlog & Hdocs & Hret & Hfin & Hlg1 & Hlg2
        & _ & w1 & Hingest).
  exists docs, (build_index_envelope (uuids w + length paths) chunks),
    e_retrieval, e_final, lg_ingest, lg_rest, resp, w', w1.
  do 6 (split; [done |]). do 4 (split; [reflexivity |]).
  do 3 (split; [done |]). rewrite Hagent. fold chunks.
  unfold agent_after_indexing, index_log.
  split; [by intros -> |]. intros Hne. by destruct chunks.
Qed.

(** C6. When the parser raises on one file of a batch, that file
    contributes no chunk and the failure is logged; the ingestion loop goes
    on and returns, in order, the chunks of the files before it followed by
    the chunks of the files after it, each file's chunks being what it
    contributes on its own; the whole run returns normally and the agent
    holds the texts of those chunks. *)
Theorem parse_failure_is_contained (before : list pystr) (p : pystr)
    (after : list pystr) (query : pystr) (w : World) :
  encode_width_ok -> agent_wf (agent w) -> parse_fails p p ->
  document_chunks p p = []
  /\ (exists w1,
        ingest_files (before ++ p :: after) [] w
        = (Ok (accumulated_chunks before ++ accumulated_chunks after), w1)
        /\ LogParseError p ∈ log w1)
  /\ (exists resp w',
        handle_uploads_and_query (before ++ p :: after) query w
        = (Ok resp, w')
        /\ LogParseError p ∈ log w'
        /\ texts (agent w')
           = texts (agent w)
             ++ map chunk_text
                  (accumulated_chunks before ++ accumulated_chunks after)).
Proof.
  intros Hw Hwf Hfail.
  pose proof (document_chunks_parse_fails p p Hfail) as Hnil.
  assert (accumulated_chunks (before ++ p :: after)
          = accumulated_chunks before ++ accumulated_chunks after) as Hacc.
  { unfold accumulated_chunks. rewrite flat_map_app. simpl.
    by rewrite Hnil. }
  assert (p ∈ before ++ p :: after) as Hin.
  { apply elem_of_app. right. apply list_elem_of_here. }
  split; [done |]. split.
  - destruct (ingest_files_run (before ++ p :: after) [] w)
      as (docs & lg & Hrun & _ & _ & Hlog).
    eexists. split.
    + rewrite Hrun. simpl. fold (accumulated_chunks (before ++ p :: after)).
      by rewrite Hacc.
    + simpl. apply elem_of_app. right. by apply Hlog.
  - destruct (handle_uploads_and_query_run (before ++ p :: after) query w
                Hw Hwf)
      as (docs & lg_ingest & e_retrieval & e_final & lg_rest & resp & w'
          & Hrun & Hagent & _ & Hlog & _ & _ & _ & _ & _ & Hparse & _).
    exists resp, w'. split; [done |]. split.
    + rewrite Hlog. apply elem_of_app. right. apply elem_of_app. left.
      by apply Hparse.
    + rewrite Hagent, Hacc. unfold agent_after_indexing.
      destruct (accumulated_chunks before ++ accumulated_chunks after);
        [by rewrite app_nil_r | done].
Qed.

End CoordinatorProofs.

(** ** The concrete deployment at work *)

Module DemoFacts.
Import Demo.

Lemma unit_row_length (i : nat) :
  (i < 384)%nat -> length (unit_row i) = 384%nat.
Proof.
  intros Hi. unfold unit_row.
  rewrite !length_app, !length_replicate. simpl. lia.
Qed.

Lemma stub_encode_width : @encode_width_ok stub_env.
Proof.
  intros t. simpl. unfold demo_encode.
  rewrite unit_row_length; [done |].
  apply Nat.mod_upper_bound. lia.
Qed.

Lemma float_encode_width : @encode_width_ok FloatDemo.float_env.
Proof.
  intros t. simpl. unfold FloatDemo.float_encode.
  by destruct (Nat.even (length t)).
Qed.

Lemma float_world_wf :
  @agent_wf FloatDemo.float_env (agent FloatDemo.float_world).
Proof. vm_compute. repeat split. Qed.

(** The three scores of the query ["gamma"] against the float index are
    ordered by the float comparison. *)
Lemma float_scores_ordered :
  @scores_strictly_ordered FloatDemo.float_env
    (@query_scores FloatDemo.float_env (agent FloatDemo.float_world)
       (@normalize_L2 FloatDemo.float_env
          (@encode FloatDemo.float_env (py "gamma")))).
Proof.
  apply (@scores_strictly_ordered_b_sound FloatDemo.float_env).
  vm_compute. reflexivity.
Qed.

Lemma indexed_world_wf : @agent_wf stub_env (agent indexed_world).
Proof. vm_compute. repeat split. Qed.

End DemoFacts.

(** The theorem on the float index of three chunks, queried for two
    results: the float comparison orders the three scores, so the two
    results come in descending order of score. *)
Lemma retrieve_top_k_witness :
  exists rs,
    @retrieve FloatDemo.float_env (py "gamma") 2 FloatDemo.float_world
    = (Ok rs, FloatDemo.float_world)
    /\ length rs = 2%nat
    /\ forall i j ri rj,
         (i < j)%nat -> rs !! i = Some ri -> rs !! j = Some rj ->
         @fltb FloatDemo.float_env (score ri) (score rj) = false.
Proof.
  destruct (proj2 (@retrieve_top_k FloatDemo.float_env) (py "gamma") 2
              FloatDemo.float_world
              (DemoFacts.float_encode_width (py "gamma"))
              DemoFacts.float_world_wf ltac:(lia))
    as (rs & Hrun & Hlen & _ & _ & _ & Hordered).
  destruct (Hordered DemoFacts.float_scores_ordered) as (Hdesc & _).
  exists rs. split; [exact Hrun |]. split; [exact Hlen | exact Hdesc].
Defined.

(** The same query evaluated on floats: the two chunks whose score rounds
    to the same float come first, the earlier one before the later one. *)
Example retrieve_on_floats :
  (fun r => match r with
            | Ok rs => Some (map text rs)
            | Raise _ => None
            end)
    (@retrieve FloatDemo.float_env (py "gamma") 5 FloatDemo.float_world).1
  = Some [py "alpha"; py "gamma"; py "beta"].
Proof. vm_compute. reflexivity. Qed.

(** With two entries tied at the best score, the earlier one is listed
    first; the other entry is left out. *)
Example retrieve_tie_break :
  (fun r => match r with
            | Ok rs => Some (map (fun r => (score r, text r)) rs)
            | Raise _ => None
            end)
    (@retrieve Demo.stub_env (py "gamma") 2 Demo.indexed_world).1
  = Some [(1, py "alpha"); (1, py "gamma")].
Proof. vm_compute. reflexivity. Qed.

(** Three entries queried with [top_k = 5]: all three come back, best
    first. *)
Example retrieve_fewer_than_k :
  (fun r => match r with
            | Ok rs => Some (map (fun r => (score r, text r)) rs)
            | Raise _ => None
            end)
    (@retrieve Demo.stub_env (py "beta") 5 Demo.indexed_world).1
  = Some [(1, py "beta"); (0, py "alpha"); (0, py "gamma")].
Proof. vm_compute. reflexivity. Qed.

(** The theorem on a run over one readable and one unreadable file. *)
Lemma build_index_envelope_always_emitted_witness :
  exists resp w',
    @handle_uploads_and_query Demo.stub_env
      [py "notes.txt"; py "broken.txt"] (py "beta")
      (@initial_world Demo.stub_env) = (Ok resp, w')
    /\ envelopes_of_type "BUILD_INDEX" (stdout w') <> [].
Proof.
  destruct (@build_index_envelope_always_emitted Demo.stub_env
              [py "notes.txt"; py "broken.txt"] (py "beta")
              (@initial_world Demo.stub_env)
              DemoFacts.stub_encode_width (@initial_agent_wf Demo.stub_env))
    as (docs & e_build & e_ret & e_fin & lg1 & lg2 & resp & w' & w1
        & _ & Hrun & Hout & _ & _ & _ & _ & _ & Hty & _).
  exists resp, w'. split; [exact Hrun |].
  rewrite Hout. unfold envelopes_of_type.
  rewrite !filter_app. rewrite (filter_cons _ e_build).
  destruct (decide (type e_build = "BUILD_INDEX")) as [_ | Hne];
    [| by destruct Hne].
  intros Hnil. apply (f_equal (@length _)) in Hnil.
  rewrite !length_app in Hnil. simpl in Hnil. lia.
Defined.

(** C3, counterexample to the claim as stated: a run whose only file cannot
    be parsed accumulates no chunk, and still prints a [BUILD_INDEX]
    envelope, with [n_chunks = 0]; [build_index] is not called (the index
    is never created). *)
Lemma build_index_envelope_counterexample :
  (@ingest_files Demo.stub_env [py "broken.txt"] []
     (@initial_world Demo.stub_env)).1 = Ok []
  /\ map (fun e => (sender e, receiver e, type e, payload e))
       (envelopes_of_type "BUILD_INDEX"
          (stdout (@handle_uploads_and_query Demo.stub_env
                     [py "broken.txt"] (py "beta")
                     (@initial_world Demo.stub_env)).2))
     = [("CoordinatorAgent", "RetrievalAgent", "BUILD_INDEX",
         [("n_chunks", VInt 0)])]
  /\ index (agent (@handle_uploads_and_query Demo.stub_env
                     [py "broken.txt"] (py "beta")
                     (@initial_world Demo.stub_env)).2) = None.
Proof. vm_compute. repeat split. Qed.

(** The theorem on three calls, the second one on an empty batch: the
    metadatas held are the dicts of the three chunks. *)
Lemma retrieval_round_trip_witness :
  exists rs,
    @retrieve Demo.stub_env (py "gamma") 2
      (@after_build_index_calls Demo.stub_env
         [[Demo.alpha; Demo.beta]; []; [Demo.gamma]]
         (@initial_world Demo.stub_env))
    = (Ok rs,
       @after_build_index_calls Demo.stub_env
         [[Demo.alpha; Demo.beta]; []; [Demo.gamma]]
         (@initial_world Demo.stub_env))
    /\ Forall2 meta_stored_for [Demo.alpha; Demo.beta; Demo.gamma]
         (metadatas
            (agent (@after_build_index_calls Demo.stub_env
                      [[Demo.alpha; Demo.beta]; []; [Demo.gamma]]
                      (@initial_world Demo.stub_env)))).
Proof.
  destruct (@retrieval_round_trip Demo.stub_env
              [[Demo.alpha; Demo.beta]; []; [Demo.gamma]]
              (py "gamma") 2 (@initial_world Demo.stub_env)
              DemoFacts.stub_encode_width eq_refl)
    as (rs & Hret & _ & Hmeta & _).
  exists rs. split; [exact Hret | exact Hmeta].
Defined.

(** The metas stored in that run, looked up. *)
Example stored_metas :
  map (fun m : gmap string metaval => (m !! "filename", m !! "chunk_index"))
    (metadatas
       (agent (@after_build_index_calls Demo.stub_env
                 [[Demo.alpha; Demo.beta]; []; [Demo.gamma]]
                 (@initial_world Demo.stub_env))))
  = [(Some (MStr (py "notes.txt")), Some (MInt 0));
     (Some (MStr (py "notes.txt")), Some (MInt 1));
     (Some (MStr (py "more.md")), Some (MInt 0))].
Proof. vm_compute. reflexivity. Qed.

(** The theorem on three calls, the second one on an empty batch. *)
Lemma build_index_append_only_witness :
  index_size
    (agent (@after_build_index_calls Demo.stub_env
              [[Demo.alpha; Demo.beta]; []; [Demo.gamma]]
              (@initial_world Demo.stub_env))) = 3%nat
  /\ @build_index Demo.stub_env []
       (@after_build_index_calls Demo.stub_env
          [[Demo.alpha; Demo.beta]; []; [Demo.gamma]]
          (@initial_world Demo.stub_env))
     = (Raise IndexError,
        @after_build_index_calls Demo.stub_env
          [[Demo.alpha; Demo.beta]; []; [Demo.gamma]]
          (@initial_world Demo.stub_env)).
Proof.
  destruct (@build_index_append_only Demo.stub_env
              [[Demo.alpha; Demo.beta]; []; [Demo.gamma]]
              (@initial_world Demo.stub_env)
              DemoFacts.stub_encode_width eq_refl)
    as (Hsize & _ & _ & _ & Hempty & _).
  split; [exact Hsize | exact Hempty].
Defined.

(** An empty batch on a fresh agent: the call raises and the index is not
    created. *)
Example build_index_empty_batch :
  (fun rw : result unit * @World Demo.stub_env =>
     (rw.1, index (agent rw.2), log rw.2))
    (@build_index Demo.stub_env [] (@initial_world Demo.stub_env))
  = (Raise IndexError, None, []).
Proof. reflexivity. Qed.

(** The theorem on a batch whose second file cannot be parsed. *)
Lemma parse_failure_is_contained_witness :
  @parse_fails Demo.stub_env (py "broken.txt") (py "broken.txt")
  /\ exists resp w',
       @handle_uploads_and_query Demo.stub_env
         [py "notes.txt"; py "broken.txt"; py "more.md"] (py "gamma")
         (@initial_world Demo.stub_env) = (Ok resp, w')
       /\ texts (agent w')
          = map chunk_text
              (@accumulated_chunks Demo.stub_env [py "notes.txt"]
               ++ @accumulated_chunks Demo.stub_env [py "more.md"]).
Proof.
  split; [reflexivity |].
  destruct (@parse_failure_is_contained Demo.stub_env
              [py "notes.txt"] (py "broken.txt") [py "more.md"] (py "gamma")
              (@initial_world Demo.stub_env)
              DemoFacts.stub_encode_width (@initial_agent_wf Demo.stub_env)
              eq_refl)
    as (_ & _ & resp & w' & Hrun & _ & Htexts).
  exists resp, w'. split; [exact Hrun | exact Htexts].
Defined.

(** The run of the witness above, evaluated: the texts indexed are those of
    the two readable files. *)
Example partial_failure_run :
  map chunk_text
    (@accumulated_chunks Demo.stub_env
       [py "notes.txt"; py "broken.txt"; py "more.md"])
  = [py "alpha beta"; py "gamma"].
Proof. vm_compute. reflexivity. Qed.

(** The theorem on a 384-wide index queried through a 128-wide model. *)
Lemma search_rejects_wrong_width_witness :
  @retrieve Demo.narrow_env (py "gamma") 5 Demo.narrow_world
  = (Raise DimensionMismatch, Demo.narrow_world).
Proof.
  apply (proj2 (@search_rejects_wrong_width Demo.narrow_env) (py "gamma") 5
           Demo.narrow_world
           (@mkIndex Demo.narrow_env EMBED_DIM [Demo.unit_row 0])
           eq_refl); [discriminate | discriminate].
Defined.

(** The answer stage in the two degraded situations of C8. *)
Example answer_backend_failure :
  (fun r => match r with
            | Ok resp => Some (answer resp)
            | Raise _ => None
            end)
    (@answer_query Demo.live_env (py "q") []
       (@initial_world Demo.live_env)).1
  = Some (JStr (py "[LLM error] timed out")).
Proof. vm_compute. reflexivity. Qed.

Example answer_no_backend_no_context :
  (fun r => match r with
            | Ok resp => Some (answer resp)
            | Raise _ => None
            end)
    (@answer_query Demo.stub_env (py "q") []
       (@initial_world Demo.stub_env)).1
  = Some (JStr (py "(Stub Answer) No relevant context found.")).
Proof. vm_compute. reflexivity. Qed.

(** One document through [process_document]: positions, source and the
    envelope. *)
Example process_document_notes :
  (fun rw : result (list Chunk) * @World Demo.stub_env =>
     match rw.1 with
     | Ok chunks =>
         Some (map (fun c => (chunk_text c,
                              chunk_get_meta c !! "filename",
                              chunk_get_meta c !! "chunk_index")) chunks,
               map (fun e => (type e, payload e)) (stdout rw.2))
     | Raise _ => None
     end)
    (@process_document Demo.stub_env (py "notes.txt") None
       (@initial_world Demo.stub_env))
  = Some ([(py "alpha beta", Some (MStr (py "notes.txt")), Some (MInt 0))],
          [("DOCUMENT_PARSED",
            [("filename", VStr (py "notes.txt")); ("n_chunks", VInt 1)])]).
Proof. vm_compute. reflexivity. Qed.

(** * Further properties of the code *)

(** ** The chunker, chunk by chunk *)

Section ChunkerDetails.

Lemma range_from_lookup (n size : Z) (fuel : nat) (i : Z) (j : nat) :
  0 < size -> (Z.to_nat (n - i) <= fuel)%nat ->
  range_from fuel i n size !! j
  = if i + Z.of_nat j * size <? n then Some (i + Z.of_nat j * size) else None.
Proof.
  intros Hs. revert i j. induction fuel as [| fuel IH]; intros i j Hfuel.
  - simpl. destruct (Z.ltb_spec (i + Z.of_nat j * size) n); [nia | done].
  - simpl. replace (0 <? size) with true by (symmetry; apply Z.ltb_lt; lia).
    destruct (Z.ltb_spec i n) as [Hlt | Hge].
    + destruct j as [| j]; simpl.
      * rewrite Z.add_0_r. by destruct (Z.ltb_spec i n); [| lia].
      * rewrite IH by lia.
        replace (i + size + Z.of_nat j * size)
          with (i + Z.pos (Pos.of_succ_nat j) * size) by lia.
        done.
    + destruct (Z.ltb_spec (i + Z.of_nat j * size) n); [nia | done].
Qed.

Lemma chunk_text_nonblank (T : pystr) (S : Z) :
  strip T <> [] ->
  _chunk_text T S
  = match py_range 0 (Z.of_nat (length (strip T))) S with
    | Raise e => Raise e
    | Ok idxs => Ok (map (fun i => slice (strip T) i (i + S)) idxs)
    end.
Proof. unfold _chunk_text. by destruct (strip T). Qed.

(** Chunk [j] is the slice [strip(T)[j*S : j*S + S]]; there is a chunk [j]
    exactly while [j*S] is inside the stripped text, and every chunk that is
    not the last one has exactly [S] characters. *)
Theorem chunk_text_lookup (T : pystr) (S : Z) :
  0 < S ->
  exists chunks,
    _chunk_text T S = Ok chunks
    /\ (forall j : nat,
          chunks !! j
          = if Z.of_nat j * S <? Z.of_nat (length (strip T))
            then Some (slice (strip T) (Z.of_nat j * S) (Z.of_nat j * S + S))
            else None)
    /\ (forall (j : nat) (c : pystr),
          chunks !! j = Some c -> (j + 1 < length chunks)%nat ->
          Z.of_nat (length c) = S).
Proof.
  intros HS.
  assert (exists chunks,
            _chunk_text T S = Ok chunks
            /\ forall j : nat,
                 chunks !! j
                 = if Z.of_nat j * S <? Z.of_nat (length (strip T))
                   then Some (slice (strip T) (Z.of_nat j * S)
                                (Z.of_nat j * S + S))
                   else None) as (chunks & Hrun & Hlookup).
  { destruct (strip T) as [| c t] eqn:Hstrip.
    - exists []. split; [unfold _chunk_text; by rewrite Hstrip |].
      intros j. rewrite lookup_nil. change (Z.of_nat (length [])) with 0.
      destruct (Z.ltb_spec (Z.of_nat j * S) 0); [nia | done].
    - rewrite chunk_text_nonblank by (by rewrite Hstrip).
      rewrite Hstrip. unfold py_range.
      destruct (Z.eqb_spec S 0) as [-> | _]; [lia |].
      rewrite Z.sub_0_r, Z.abs_eq, Nat2Z.id by lia.
      eexists. split; [reflexivity |]. intros j.
      rewrite list_lookup_fmap, range_from_lookup by lia.
      rewrite Z.add_0_l.
      by destruct (Z.of_nat j * S <? Z.of_nat (length (c :: t))). }
  exists chunks. split; [done |]. split; [done |].
  intros j c Hc Hnext.
  apply lookup_lt_is_Some_2 in Hnext as [c' Hc'].
  rewrite Hlookup in Hc, Hc'.
  destruct (Z.ltb_spec (Z.of_nat j * S) (Z.of_nat (length (strip T))));
    [| done].
  destruct (Z.ltb_spec (Z.of_nat (j + 1) * S) (Z.of_nat (length (strip T))));
    [| done].
  injection Hc as <-. rewrite slice_take_drop by lia.
  rewrite length_take, length_drop. lia.
Qed.

Lemma chunk_text_blank (T : pystr) (S : Z) :
  forallb isspace T = true -> _chunk_text T S = Ok [].
Proof.
  intros Hsp. apply strip_nil_iff in Hsp. unfold _chunk_text.
  by rewrite Hsp.
Qed.

Lemma chunk_text_size_zero (T : pystr) :
  forallb isspace T = false -> _chunk_text T 0 = Raise ValueError.
Proof.
  intros Hns. rewrite chunk_text_nonblank; [done |].
  intros Hnil. apply strip_nil_iff in Hnil. congruence.
Qed.

Lemma chunk_text_size_negative (T : pystr) (S : Z) :
  S < 0 -> _chunk_text T S = Ok [].
Proof.
  intros HS. destruct (forallb isspace T) eqn:Hsp;
    [by apply chunk_text_blank |].
  rewrite chunk_text_nonblank.
  2:{ intros Hnil. apply strip_nil_iff in Hnil. congruence. }
  unfold py_range. destruct (Z.eqb_spec S 0) as [-> | _]; [lia |].
  destruct (Z.to_nat _) as [| fuel]; [done |]. simpl.
  replace (0 <? S) with false by (symmetry; apply Z.ltb_ge; lia).
  by destruct (Z.ltb_spec (Z.of_nat (length (strip T))) 0); [lia |].
Qed.

(** Sizes that are not positive: size 0 raises [ValueError] as soon as the
    text has a non-whitespace character, a negative size silently yields no
    chunk at all, and a blank text yields no chunk whatever the size. *)
Theorem chunk_text_degenerate_sizes (T : pystr) :
  (forallb isspace T = false -> _chunk_text T 0 = Raise ValueError)
  /\ (forall S, S < 0 -> _chunk_text T S = Ok [])
  /\ (forall S, forallb isspace T = true -> _chunk_text T S = Ok []).
Proof.
  split; [apply chunk_text_size_zero |].
  split; [apply chunk_text_size_negative |].
  intros S. apply chunk_text_blank.
Qed.

Lemma lstrip_fixed (s : pystr) :
  (forall c r, s = c :: r -> isspace c = false) -> lstrip s = s.
Proof.
  destruct s as [| c r]; [done |]. intros H. simpl.
  by rewrite (H c r eq_refl).
Qed.

Lemma strip_idempotent (s : pystr) : strip (strip s) = strip s.
Proof.
  destruct (strip_decompose s) as (_ & _ & _ & _ & _ & Hhead & Hlast).
  unfold strip at 1. rewrite (lstrip_fixed (strip s)) by done.
  unfold rstrip. rewrite lstrip_fixed; [apply rev_involutive |].
  intros c r Hrev. apply (Hlast c (rev r)).
  apply (f_equal (@rev _)) in Hrev. rewrite rev_involutive in Hrev.
  by rewrite Hrev.
Qed.

(** Re-chunking what the chunks spell gives the same chunks: whenever
    chunking returns, chunking the concatenation of its chunks with the same
    size returns them again. *)
Theorem chunk_text_rechunk (T : pystr) (S : Z) (chunks : list pystr) :
  _chunk_text T S = Ok chunks ->
  _chunk_text (concat chunks) S = Ok chunks.
Proof.
  intros Hrun.
  destruct (forallb isspace T) eqn:Hsp.
  { rewrite (chunk_text_blank T S Hsp) in Hrun. by injection Hrun as <-. }
  destruct (Z.lt_trichotomy S 0) as [Hneg | [-> | Hpos]].
  - rewrite (chunk_text_size_negative T S Hneg) in Hrun.
    by injection Hrun as <-.
  - by rewrite (chunk_text_size_zero T Hsp) in Hrun.
  - assert (concat chunks = strip T) as Hcat.
    { revert Hrun. rewrite chunk_text_nonblank.
      2:{ intros Hnil. apply strip_nil_iff in Hnil. congruence. }
      unfold py_range. destruct (Z.eqb_spec S 0) as [-> | _]; [lia |].
      rewrite Z.sub_0_r, Z.abs_eq, Nat2Z.id by lia.
      intros [= <-]. by rewrite range_from_chunks by lia. }
    rewrite <- Hrun. unfold _chunk_text.
    by rewrite Hcat, strip_idempotent.
Qed.

End ChunkerDetails.

(** The lookup theorem at the text ["  abcdefg "] and size 3. *)
Lemma chunk_text_lookup_witness :
  exists chunks,
    _chunk_text (py "  abcdefg ") 3 = Ok chunks
    /\ chunks !! 1%nat = Some (py "def").
Proof.
  destruct (chunk_text_lookup (py "  abcdefg ") 3 ltac:(lia))
    as (chunks & Hrun & Hlookup & _).
  exists chunks. split; [exact Hrun |]. rewrite Hlookup. reflexivity.
Defined.

(** The re-chunking theorem at the text ["  abcdefg "] and size 3. *)
Lemma chunk_text_rechunk_witness :
  _chunk_text (concat [py "abc"; py "def"; py "g"]) 3
  = Ok [py "abc"; py "def"; py "g"].
Proof.
  apply (chunk_text_rechunk (py "  abcdefg ") 3). reflexivity.
Defined.

(** ** The retrieval agent at its edges *)

Section RetrievalDetails.
Context `{Ext : Externals}.

Lemma retrieve_empty_index (query : pystr) (k : Z) (w : World) :
  index_size (agent w) = 0%nat -> retrieve query k w = (Ok [], w).
Proof.
  intros H0. unfold retrieve. run_M. unfold index_size in H0.
  destruct (index (agent w)) as [ix |]; [| done].
  unfold ntotal. by rewrite H0.
Qed.

Lemma handle_query_of_retrieve (query : pystr) (k : Z) (w : World)
    (rs : list RetrievalResult) :
  retrieve query k w = (Ok rs, w) ->
  handle_query query k w
  = (Ok rs,
     {| agent := agent w;
        stdout := stdout w
                  ++ [envelope_at (uuids w) "RetrievalAgent"
                        "LLMResponseAgent" "RETRIEVAL_RESULT"
                        [("retrieved_context", VResults rs);
                         ("query", VStr query)]];
        log := log w ++ [LogMcp "RetrievalAgent" "LLMResponseAgent"
                           "RETRIEVAL_RESULT"];
        uuids := S (uuids w) |}).
Proof.
  intros Hret. unfold handle_query.
  unfold mbind at 1, M_bind at 1. rewrite Hret.
  unfold mbind at 1, M_bind at 1. by rewrite send_mcp_message_run.
Qed.

(** On an index that holds no entry, or that was never built,
    [handle_query] returns the empty list and still prints one
    [RETRIEVAL_RESULT] envelope, whose context is empty and which carries the
    query; nothing else changes. *)
Theorem handle_query_empty_index (query : pystr) (k : Z) (w : World) :
  index_size (agent w) = 0%nat ->
  handle_query query k w
  = (Ok [],
     {| agent := agent w;
        stdout := stdout w
                  ++ [envelope_at (uuids w) "RetrievalAgent"
                        "LLMResponseAgent" "RETRIEVAL_RESULT"
                        [("retrieved_context", VResults []);
                         ("query", VStr query)]];
        log := log w ++ [LogMcp "RetrievalAgent" "LLMResponseAgent"
                           "RETRIEVAL_RESULT"];
        uuids := S (uuids w) |}).
Proof.
  intros H0. apply handle_query_of_retrieve. by apply retrieve_empty_index.
Qed.

Lemma stored_rows_width_bad (chunks : list Chunk) (c : Chunk) :
  c ∈ chunks ->
  Z.of_nat (length (encode (chunk_text c))) <> EMBED_DIM ->
  forallb (fun v : list F => Z.of_nat (length v) =? EMBED_DIM)
    (map normalize_L2 (map encode (map chunk_text chunks))) = false.
Proof.
  intros Hc Hbad. apply not_true_is_false. intros Hall.
  rewrite forallb_forall in Hall.
  specialize (Hall (normalize_L2 (encode (chunk_text c)))).
  rewrite normalize_L2_length in Hall.
  assert ((Z.of_nat (length (encode (chunk_text c))) =? EMBED_DIM) = true)
    as Heq; [| by apply Z.eqb_eq in Heq].
  apply Hall. rewrite !map_map. apply in_map_iff. exists c.
  split; [done |]. by apply list_elem_of_In.
Qed.

Lemma collect_results_ext (a a' : RetrievalAgent) (hits : list (F * Z))
    (acc : list RetrievalResult) :
  metadatas a = metadatas a' -> texts a = texts a' ->
  collect_results a hits acc = collect_results a' hits acc.
Proof.
  intros Hm Ht. revert acc.
  induction hits as [| [s idx] hits IH]; intros acc; [done |].
  simpl. rewrite Hm, Ht. destruct (idx <? 0); [apply IH |].
  destruct (metadatas a' !! Z.to_nat idx); [| done].
  destruct (texts a' !! Z.to_nat idx); [apply IH | done].
Qed.

(** A batch that the index rejects is not half stored: when the embedding
    of some chunk of the batch has another width than the index,
    [build_index] raises [DimensionMismatch], nothing is printed or logged,
    the texts, the metadatas and the stored rows are what they were, the
    agent is still well formed, and every later query answers as it would
    have before. The only trace is the empty index a first call creates
    before adding. *)
Theorem build_index_rejected_batch (chunks : list Chunk) (c : Chunk)
    (w : World) :
  agent_wf (agent w) -> c ∈ chunks ->
  Z.of_nat (length (encode (chunk_text c))) <> EMBED_DIM ->
  exists w',
    build_index chunks w = (Raise DimensionMismatch, w')
    /\ texts (agent w') = texts (agent w)
    /\ metadatas (agent w') = metadatas (agent w)
    /\ index_rows (agent w') = index_rows (agent w)
    /\ stdout w' = stdout w /\ log w' = log w /\ uuids w' = uuids w
    /\ agent_wf (agent w')
    /\ forall query k, (retrieve query k w').1 = (retrieve query k w).1.
Proof.
  intros Hwf Hc Hbad.
  assert (normalize_L2_rows (map encode (map chunk_text chunks))
          = Ok (map normalize_L2 (map encode (map chunk_text chunks))))
    as Hnorm.
  { destruct chunks; [by apply elem_of_nil in Hc | done]. }
  unfold build_index, index_add. unfold_M. rewrite Hnorm.
  set (ix0 := match index (agent w) with
              | Some ix => ix
              | None => _
              end).
  assert (d ix0 = EMBED_DIM) as Hd.
  { subst ix0. destruct (index (agent w)) eqn:Hix; [| done].
    by apply (agent_wf_index_width (agent w)). }
  assert (xb ix0 = index_rows (agent w)) as Hrows.
  { subst ix0. unfold index_rows. by destruct (index (agent w)). }
  cbn [agent stdout log uuids].
  rewrite Hd, (stored_rows_width_bad chunks c) by done.
  eexists. split; [reflexivity |]. cbn [agent stdout log uuids texts metadatas].
  do 2 (split; [reflexivity |]).
  split; [unfold index_rows at 1; by cbn [index] |].
  do 3 (split; [reflexivity |]).
  split.
  { destruct Hwf as [Hm Hix]. split; [done |]. cbn [index texts].
    split; [done |]. rewrite Hrows. unfold index_rows.
    destruct (index (agent w)) as [ix |]; [tauto | by rewrite Hix]. }
  intros query k. unfold retrieve. unfold_M. cbn [agent index].
  unfold ntotal. rewrite Hrows. unfold index_rows. subst ix0.
  destruct (index (agent w)) as [ix |] eqn:Hix; [| done].
  destruct (Z.of_nat (length (xb ix)) =? 0); [done |].
  destruct (index_search ix _ k) as [hits |]; [| done].
  by rewrite (collect_results_ext _ (agent w)).
Qed.

End RetrievalDetails.

(** ** A run of the coordinator, message by message *)

Section PipelineDetails.
Context `{Ext : Externals}.

Lemma ingest_files_trace (paths : list pystr) (acc : list Chunk)
    (w : World) :
  exists lg,
    ingest_files paths acc w
    = (Ok (acc ++ accumulated_chunks paths),
       {| agent := agent w;
          stdout := stdout w
                    ++ imap (fun i p =>
                               document_parsed_envelope (uuids w + i) p p)
                         paths;
          log := log w ++ lg;
          uuids := (uuids w + length paths)%nat |}).
Proof.
  revert acc w. induction paths as [| p paths IH]; intros acc w.
  - exists []. simpl. rewrite !app_nil_r, Nat.add_0_r. by destruct w.
  - simpl. unfold mbind at 1, M_bind at 1.
    rewrite process_document_run. cbn [default id].
    destruct (IH (acc ++ document_chunks p p)
                {| agent := agent w;
                   stdout := stdout w
                             ++ [document_parsed_envelope (uuids w) p p];
                   log := log w ++ parse_log p p
                          ++ [LogMcp "IngestionAgent" "RetrievalAgent"
                                "DOCUMENT_PARSED";
                              LogParsed p
                                (Z.of_nat (length (document_chunks p p)))];
                   uuids := S (uuids w) |}) as (lg & Hrun).
    rewrite Hrun. cbn [agent stdout log uuids].
    eexists (parse_log p p ++ _ :: _ :: lg).
    unfold accumulated_chunks. simpl.
    f_equal; [by rewrite <- app_assoc |].
    f_equal; [| by rewrite <- !app_assoc | lia].
    rewrite <- app_assoc. simpl. rewrite Nat.add_0_r. do 2 f_equal.
    apply imap_ext. intros i q _. simpl. f_equal. lia.
Qed.

Lemma call_llm_result_any_world (prompt : pystr)
    (retrieved_ : list RetrievalResult) (max_tokens : Z) (w w0 : World) :
  (call_llm prompt retrieved_ max_tokens w).1
  = (call_llm prompt retrieved_ max_tokens w0).1.
Proof.
  unfold call_llm. destruct GROQ_API_KEY as [[| c key] |].
  - by destruct retrieved_.
  - by destruct (try_backend (c :: key) prompt max_tokens).
  - by destruct retrieved_.
Qed.

Lemma retrieve_result_any_world (query : pystr) (k : Z) (w w0 : World) :
  agent w = agent w0 -> (retrieve query k w).1 = (retrieve query k w0).1.
Proof.
  intros Ha. unfold retrieve. unfold_M. rewrite Ha.
  destruct (index (agent w0)) as [ix |]; [| done].
  destruct (ntotal ix =? 0); [done |].
  destruct (index_search ix _ k) as [hits |]; [| done].
  by destruct (collect_results (agent w0) hits []).
Qed.

(** The rest of a run, once indexing and retrieval have gone through. *)
Lemma pipeline_steps (paths : list pystr) (query : pystr) (w w3 : World)
    (rs : list RetrievalResult) :
  match accumulated_chunks paths with
  | _ :: _ => index_chunks (accumulated_chunks paths)
  | [] => mret tt
  end (world_before_indexing paths w) = (Ok tt, w3) ->
  retrieve query 5 w3 = (Ok rs, w3) ->
  exists resp lg,
    (call_llm (format_prompt query rs) rs 512 w).1 = Ok resp
    /\ handle_uploads_and_query paths query w
       = (Ok {| answer := llm_answer resp; retrieved := rs |},
          {| agent := agent w3;
             stdout := stdout w3
                       ++ [envelope_at (uuids w3) "RetrievalAgent"
                             "LLMResponseAgent" "RETRIEVAL_RESULT"
                             [("retrieved_context", VResults rs);
                              ("query", VStr query)];
                           envelope_at (S (uuids w3)) "LLMResponseAgent" "UI"
                             "FINAL_RESPONSE"
                             [("query", VStr query);
                              ("answer", VJson (llm_answer resp));
                              ("retrieved", VResults rs);
                              ("llm_raw", match llm_raw resp with
                                          | Some j => VJson j
                                          | None => VNone
                                          end)]];
             log := log w3 ++ lg;
             uuids := S (S (uuids w3)) |}).
Proof.
  intros Hindex Hret.
  destruct (ingest_files_trace paths [] w) as (lg0 & Hingest).
  simpl in Hingest.
  assert (world_before_indexing paths w
          = {| agent := agent w;
               stdout := (stdout w
                          ++ imap (fun i p =>
                                     document_parsed_envelope (uuids w + i)
                                       p p) paths)
                         ++ [build_index_envelope (uuids w + length paths)
                               (accumulated_chunks paths)];
               log := (log w ++ lg0)
                      ++ [LogMcp "CoordinatorAgent" "RetrievalAgent"
                            "BUILD_INDEX"];
               uuids := S (uuids w + length paths) |}) as Hw2.
  { unfold world_before_indexing. rewrite Hingest. cbn [snd log].
    f_equal. apply app_assoc. }
  rewrite Hw2 in Hindex.
  pose proof (handle_query_of_retrieve query 5 w3 rs Hret) as Hquery.
  set (w4 := {| agent := agent w3;
                stdout := stdout w3
                          ++ [envelope_at (uuids w3) "RetrievalAgent"
                                "LLMResponseAgent" "RETRIEVAL_RESULT"
                                [("retrieved_context", VResults rs);
                                 ("query", VStr query)]];
                log := log w3 ++ [LogMcp "RetrievalAgent" "LLMResponseAgent"
                                    "RETRIEVAL_RESULT"];
                uuids := S (uuids w3) |}) in *.
  destruct (answer_query_run query rs w4) as (resp & lg & Hcall & _ & Hanswer).
  exists resp. eexists. split.
  { rewrite (call_llm_result_any_world _ _ _ w
               {| agent := agent w4; stdout := stdout w4;
                  log := log w4
                         ++ [LogPromptLen
                               (Z.of_nat (length (format_prompt query rs)))];
                  uuids := uuids w4 |}).
    by rewrite Hcall. }
  unfold handle_uploads_and_query. unfold mbind at 1, M_bind at 1.
  rewrite Hingest. unfold mbind at 1, M_bind at 1.
  rewrite send_mcp_message_run. cbn [agent stdout log uuids].
  fold (build_index_envelope (uuids w + length paths)
          (accumulated_chunks paths)).
  unfold mbind at 1, M_bind at 1. rewrite Hindex.
  unfold mbind at 1, M_bind at 1. rewrite Hquery.
  unfold mbind at 1, M_bind at 1. rewrite Hanswer.
  unfold mret, M_ret. subst w4. cbn [agent stdout log uuids].
  f_equal. f_equal; [by rewrite <- app_assoc |].
  rewrite <- app_assoc. reflexivity.
Qed.

(** Indexing and retrieval on a well-formed agent, as [pipeline_steps]
    wants them. *)
Lemma pipeline_index_and_retrieve (paths : list pystr) (query : pystr)
    (w : World) :
  encode_width_ok -> agent_wf (agent w) ->
  exists w3 rs,
    match accumulated_chunks paths with
    | _ :: _ => index_chunks (accumulated_chunks paths)
    | [] => mret tt
    end (world_before_indexing paths w) = (Ok tt, w3)
    /\ retrieve query 5 w3 = (Ok rs, w3)
    /\ agent w3 = agent_after_indexing (agent w) (accumulated_chunks paths)
    /\ stdout w3 = stdout (world_before_indexing paths w)
    /\ uuids w3 = uuids (world_before_indexing paths w)
    /\ agent_wf (agent w3)
    /\ length rs
       = Nat.min 5 (index_size (agent w)
                    + length (accumulated_chunks paths)).
Proof.
  intros Hw Hwf.
  set (w2 := world_before_indexing paths w).
  assert (exists w3,
            match accumulated_chunks paths with
            | _ :: _ => index_chunks (accumulated_chunks paths)
            | [] => mret tt
            end w2 = (Ok tt, w3)
            /\ agent w3
               = agent_after_indexing (agent w) (accumulated_chunks paths)
            /\ stdout w3 = stdout w2 /\ uuids w3 = uuids w2)
    as (w3 & Hindex & Hagent & Hout & Huu).
  { unfold agent_after_indexing.
    destruct (accumulated_chunks paths) as [| c chunks].
    - exists w2. by unfold_M.
    - unfold index_chunks. rewrite build_index_run by done.
      eexists. split; [reflexivity |]. by cbn. }
  assert (agent_wf (agent w3)) as Hwf3.
  { rewrite Hagent. unfold agent_after_indexing.
    destruct (accumulated_chunks paths); [done | by apply agent_extended_wf]. }
  destruct (retrieve_run query 5 w3 (Hw query) Hwf3) as (rs & Hret & Hrs).
  exists w3, rs. do 6 (split; [done |]).
  rewrite <- (Forall2_length _ _ _ Hrs), search_hits_length, Hagent.
  f_equal. unfold agent_after_indexing, index_size, agent_extended, index_rows.
  destruct (accumulated_chunks paths) as [| c chunks]; [simpl; lia |].
  cbn [index xb]. rewrite length_app, length_map.
  by destruct (index (agent w)).
Qed.

End PipelineDetails.

Section PipelineProperties.
Context `{Ext : Externals}.

(** What a run returns is what it reported: the list in the response is
    the list carried by the [RETRIEVAL_RESULT] envelope and by the
    [FINAL_RESPONSE] envelope, which are the last two printed; the answer in
    the response is the one in [FINAL_RESPONSE]; the list has
    [min 5 (N + n)] entries, for [N] entries indexed before the run and [n]
    chunks accumulated by it, and it is what a search of the index with
    [top_k = 5] gives once the run is over. *)
Theorem run_reports_what_it_retrieved (paths : list pystr) (query : pystr)
    (w : World) :
  encode_width_ok -> agent_wf (agent w) ->
  exists resp w' printed e_retrieval e_final raw,
    handle_uploads_and_query paths query w = (Ok resp, w')
    /\ stdout w' = printed ++ [e_retrieval; e_final]
    /\ type e_retrieval = "RETRIEVAL_RESULT"
    /\ payload e_retrieval
       = [("retrieved_context", VResults (retrieved resp));
          ("query", VStr query)]
    /\ type e_final = "FINAL_RESPONSE"
    /\ payload e_final
       = [("query", VStr query); ("answer", VJson (answer resp));
          ("retrieved", VResults (retrieved resp)); ("llm_raw", raw)]
    /\ length (retrieved resp)
       = Nat.min 5 (index_size (agent w)
                    + length (accumulated_chunks paths))
    /\ (retrieve query 5 w').1 = Ok (retrieved resp).
Proof.
  intros Hw Hwf.
  destruct (pipeline_index_and_retrieve paths query w Hw Hwf)
    as (w3 & rs & Hindex & Hret & _ & _ & _ & _ & Hlen).
  destruct (pipeline_steps paths query w w3 rs Hindex Hret)
    as (resp & lg & _ & Hrun).
  eexists _, _, (stdout w3), _, _, _. split; [exact Hrun |].
  cbn [stdout retrieved answer]. do 5 (split; [reflexivity |]).
  split; [done |].
  rewrite (retrieve_result_any_world query 5 _ w3) by done.
  by rewrite Hret.
Qed.

(** Every envelope of a run gets a trace id of its own: a run over [n]
    files prints [n + 3] envelopes and draws [n + 3] UUIDs, the [i]-th
    envelope being stamped ["rag-"] plus the first eight characters of the
    [i]-th UUID drawn; no envelope reuses the trace id of the message it
    answers. *)
Theorem run_draws_one_trace_id_per_envelope (paths : list pystr)
    (query : pystr) (w : World) :
  encode_width_ok -> agent_wf (agent w) ->
  exists resp w' printed,
    handle_uploads_and_query paths query w = (Ok resp, w')
    /\ stdout w' = stdout w ++ printed
    /\ length printed = (length paths + 3)%nat
    /\ uuids w' = (uuids w + length paths + 3)%nat
    /\ forall (i : nat) (e : Envelope),
         printed !! i = Some e ->
         trace_id e
         = py "rag" ++ py "-" ++ take 8 (uuid4_hex (uuids w + i)).
Proof.
  intros Hw Hwf.
  destruct (pipeline_index_and_retrieve paths query w Hw Hwf)
    as (w3 & rs & Hindex & Hret & _ & Hout & Huu & _).
  destruct (pipeline_steps paths query w w3 rs Hindex Hret)
    as (resp & lg & _ & Hrun).
  rewrite Hout, Huu in Hrun. cbn [world_before_indexing stdout uuids] in Hrun.
  eexists _, _, (imap (fun i p => document_parsed_envelope (uuids w + i) p p)
                   paths
                 ++ [_; _; _]).
  split; [exact Hrun |]. cbn [stdout uuids].
  split; [by rewrite <- !app_assoc |].
  split; [rewrite length_app, length_imap; simpl; lia |].
  split; [lia |].
  intros i e He.
  destruct (decide (i < length paths)%nat) as [Hlt | Hge].
  - rewrite lookup_app_l in He by (by rewrite length_imap).
    rewrite list_lookup_imap in He.
    destruct (paths !! i); [| done]. by injection He as <-.
  - rewrite lookup_app_r in He by (rewrite length_imap; lia).
    rewrite length_imap in He.
    assert (exists j, i = (length paths + j)%nat) as [j ->]
      by (exists (i - length paths)%nat; lia).
    replace (length paths + j - length paths)%nat with j in He by lia.
    destruct j as [| [| [| j]]]; simpl in He; try done;
      injection He as <-; cbn [trace_id envelope_at build_index_envelope];
      do 4 f_equal; lia.
Qed.

(** The index outlives a run and nothing is deduplicated: a run appends
    the chunks it accumulated to whatever the agent already held, so two
    runs over the same files leave every chunk of those files stored
    twice. *)
Theorem runs_accumulate (paths : list pystr) (query1 query2 : pystr)
    (w : World) :
  encode_width_ok -> agent_wf (agent w) ->
  exists resp1 w1 resp2 w2,
    handle_uploads_and_query paths query1 w = (Ok resp1, w1)
    /\ handle_uploads_and_query paths query2 w1 = (Ok resp2, w2)
    /\ texts (agent w1)
       = texts (agent w) ++ map chunk_text (accumulated_chunks paths)
    /\ texts (agent w2)
       = texts (agent w) ++ map chunk_text (accumulated_chunks paths)
         ++ map chunk_text (accumulated_chunks paths)
    /\ index_size (agent w2)
       = (index_size (agent w)
          + 2 * length (accumulated_chunks paths))%nat.
Proof.
  intros Hw Hwf.
  assert (forall a, agent_wf a ->
            agent_wf (agent_after_indexing a (accumulated_chunks paths))
            /\ texts (agent_after_indexing a (accumulated_chunks paths))
               = texts a ++ map chunk_text (accumulated_chunks paths))
    as Hstep.
  { intros a Ha. unfold agent_after_indexing.
    destruct (accumulated_chunks paths) as [| c chunks].
    - by rewrite app_nil_r.
    - split; [by apply agent_extended_wf | done]. }
  destruct (handle_uploads_and_query_run paths query1 w Hw Hwf)
    as (? & ? & ? & ? & ? & resp1 & w1 & Hrun1 & Hagent1 & _).
  destruct (Hstep (agent w) Hwf) as [Hwf1 Htexts1].
  rewrite <- Hagent1 in Hwf1, Htexts1.
  destruct (handle_uploads_and_query_run paths query2 w1 Hw Hwf1)
    as (? & ? & ? & ? & ? & resp2 & w2 & Hrun2 & Hagent2 & _).
  destruct (Hstep (agent w1) Hwf1) as [Hwf2 Htexts2].
  rewrite <- Hagent2 in Hwf2, Htexts2.
  exists resp1, w1, resp2, w2. do 3 (split; [done |]).
  assert (texts (agent w2)
          = texts (agent w) ++ map chunk_text (accumulated_chunks paths)
            ++ map chunk_text (accumulated_chunks paths)) as Htexts.
  { by rewrite Htexts2, Htexts1, <- app_assoc. }
  split; [done |].
  destruct (agent_wf_sizes _ Hwf2) as [<- _].
  destruct (agent_wf_sizes _ Hwf) as [<- _].
  rewrite Htexts, !length_app, !length_map. lia.
Qed.

(** A question asked without any usable file is answered from what earlier
    runs indexed: when the files of a run yield no chunk, the agent is left
    as it was and the run still retrieves [min 5 N] of the [N] entries
    already stored, each carrying a stored text. *)
Theorem run_without_chunks_searches_earlier_uploads (paths : list pystr)
    (query : pystr) (w : World) :
  encode_width_ok -> agent_wf (agent w) -> accumulated_chunks paths = [] ->
  exists resp w',
    handle_uploads_and_query paths query w = (Ok resp, w')
    /\ agent w' = agent w
    /\ length (retrieved resp) = Nat.min 5 (index_size (agent w))
    /\ Forall (fun r => text r ∈ texts (agent w)) (retrieved resp).
Proof.
  intros Hw Hwf Hnone.
  destruct (pipeline_index_and_retrieve paths query w Hw Hwf)
    as (w3 & rs & Hindex & Hret & Hagent & _ & _ & Hwf3 & Hlen).
  destruct (pipeline_steps paths query w w3 rs Hindex Hret)
    as (resp & lg & _ & Hrun).
  rewrite Hnone in Hagent, Hlen. cbn [agent_after_indexing] in Hagent.
  eexists _, _. split; [exact Hrun |]. cbn [agent retrieved].
  split; [done |].
  split; [by rewrite Hlen, Nat.add_0_r |].
  destruct (retrieve_run query 5 w3 (Hw query) Hwf3) as (rs' & Hret' & Hrs).
  rewrite Hret in Hret'. injection Hret' as <-.
  rewrite Hagent in Hrs.
  apply Forall_forall. intros r Hr.
  apply list_elem_of_lookup in Hr as [i Hr].
  destruct (Forall2_lookup_r _ _ _ _ _ Hrs Hr) as (h & _ & Hat).
  unfold result_at in Hat.
  destruct (metadatas (agent w) !! h.2); [| done].
  destruct (texts (agent w) !! h.2) as [t |] eqn:Ht; [| done].
  injection Hat as <-. cbn [text]. by eapply list_elem_of_lookup_2.
Qed.

(** The empty corpus without a backend: when no API key is set, the files
    of the run yield no chunk and nothing was indexed before, the run
    returns the fixed no-context answer with an empty retrieved list, and
    never creates the index. No assumption on the embedding model is
    needed: it is not called. *)
Theorem run_on_empty_corpus (paths : list pystr) (query : pystr)
    (w : World) :
  GROQ_API_KEY = None \/ GROQ_API_KEY = Some [] ->
  accumulated_chunks paths = [] -> index_size (agent w) = 0%nat ->
  exists w',
    handle_uploads_and_query paths query w
    = (Ok {| answer := JStr (py "(Stub Answer) No relevant context found.");
             retrieved := [] |}, w')
    /\ agent w' = agent w.
Proof.
  intros Hkey Hnone H0.
  assert (match accumulated_chunks paths with
          | _ :: _ => index_chunks (accumulated_chunks paths)
          | [] => mret tt
          end (world_before_indexing paths w)
          = (Ok tt, world_before_indexing paths w)) as Hindex.
  { by rewrite Hnone. }
  assert (retrieve query 5 (world_before_indexing paths w)
          = (Ok [], world_before_indexing paths w)) as Hret.
  { by apply retrieve_empty_index. }
  destruct (pipeline_steps paths query w _ [] Hindex Hret)
    as (resp & lg & Hcall & Hrun).
  assert (resp = {| llm_answer :=
                      JStr (py "(Stub Answer) No relevant context found.");
                    llm_raw := None |}) as ->.
  { revert Hcall. unfold call_llm.
    destruct Hkey as [-> | ->]; unfold_M; by intros [= <-]. }
  eexists. split; [exact Hrun | done].
Qed.

End PipelineProperties.

(** ** The answer stage in detail *)

Section AnswerDetails.
Context `{Ext : Externals}.

(** Whatever rule fires, and also when none does, the stub extractor
    labels its answer: the result always starts with ["(Stub Answer) "]. *)
Theorem extract_stub_answers_labelled (text_ : pystr) :
  exists rest, extract_stub_answers text_ = py "(Stub Answer) " ++ rest.
Proof.
  unfold extract_stub_answers.
  destruct (_ ≫= _) as [value |];
    [by exists (py "Revenue in 2023 was " ++ group value 0) |].
  destruct (_ ≫= _) as [value |];
    [by exists (py "Revenue in 2024 was " ++ group value 0) |].
  destruct (_ ≫= _) as [value |];
    [by exists (py "Customer Acquisition Cost was " ++ group value 0) |].
  destruct (re_search _ true text_) as [m |];
    [by exists (py "Net Promoter Score was " ++ group m 1) |].
  destruct (re_search _ true text_) as [m |];
    [by exists (py "Retention rate was " ++ group m 1 ++ py "%") |].
  destruct (re_search _ true text_) as [m |];
    [by exists (py "Churn rate was " ++ group m 2 ++ py "%") |].
  destruct (re_search _ true text_) as [m |];
    [by exists (py "Employee satisfaction score was " ++ group m 1
                ++ py "%") |].
  destruct (re_search _ true text_) as [m |];
    [by exists (py "Carbon footprint reduced by " ++ group m 1 ++ py "%") |].
  by eexists.
Qed.

Lemma slice_prefix {A : Type} (l : list A) (n : nat) :
  slice l 0 (Z.of_nat n) = take n l.
Proof.
  unfold slice. rewrite (clamp_index_inside _ 0) by lia.
  rewrite Z.sub_0_r. change (Z.to_nat 0) with 0%nat. rewrite drop_0.
  destruct (Z.le_gt_cases (Z.of_nat n) (Z.of_nat (length l))).
  - rewrite clamp_index_inside by lia. f_equal. lia.
  - rewrite clamp_index_above by lia. rewrite !take_ge; [done | lia | lia].
Qed.

(** When none of the eight patterns the extractor searches the text for
    matches it, the answer is the label followed by a preview: the first
    400 characters of the text with every newline turned into a space. The
    preview has at most 400 characters and contains no newline. Nothing is
    assumed of any other pattern. *)
Theorem extract_stub_answers_preview (text_ : pystr) :
  Forall (fun rule => re_search rule.1 rule.2 text_ = None)
    stub_rule_patterns ->
  exists preview,
    extract_stub_answers text_ = py "(Stub Answer) " ++ preview
    /\ preview = map (fun c => if (c =? 10)%N then 32%N else c)
                   (take 400 text_)
    /\ (length preview <= 400)%nat
    /\ 10%N ∉ preview.
Proof.
  intros Hnone. unfold stub_rule_patterns in Hnone.
  repeat (let H := fresh "Hrule" in apply Forall_cons in Hnone as [H Hnone]).
  cbn [fst snd] in *.
  eexists. split; [| split; [reflexivity |]].
  - unfold extract_stub_answers.
    rewrite Hrule, Hrule0, Hrule1, Hrule2, Hrule3, Hrule4, Hrule5, Hrule6.
    change (slice text_ 0 400) with (slice text_ 0 (Z.of_nat 400)).
    rewrite (slice_prefix text_ 400). reflexivity.
  - split; [rewrite length_map, length_take; lia |].
    intros Hin. apply list_elem_of_fmap in Hin as (c & Hc & _).
    destruct (N.eqb_spec c 10); [done | congruence].
Qed.

(** Without an API key the answer is computed from the texts of the first
    three retrieved results only: the prompt, the token limit and every
    further result are ignored. *)
Theorem call_llm_stub_reads_first_three (prompt prompt' : pystr)
    (retrieved_ : list RetrievalResult) (max_tokens max_tokens' : Z)
    (w : World) :
  GROQ_API_KEY = None \/ GROQ_API_KEY = Some [] ->
  (call_llm prompt retrieved_ max_tokens w).1
  = (call_llm prompt' (take 3 retrieved_) max_tokens' w).1.
Proof.
  intros Hkey. unfold call_llm.
  destruct Hkey as [-> | ->]; destruct retrieved_ as [| r rs]; try done;
    unfold_M; cbn [fst]; by rewrite take_take.
Qed.

Lemma answer_query_result (query : pystr)
    (retrieved_ : list RetrievalResult) (w : World) (resp : LlmResponse) :
  (call_llm (format_prompt query retrieved_) retrieved_ 512 w).1 = Ok resp ->
  exists w',
    answer_query query retrieved_ w
    = (Ok {| answer := llm_answer resp; retrieved := retrieved_ |}, w')
    /\ exists printed,
         stdout w' = stdout w ++ [printed]
         /\ payload printed
            = [("query", VStr query); ("answer", VJson (llm_answer resp));
               ("retrieved", VResults retrieved_);
               ("llm_raw", match llm_raw resp with
                           | Some j => VJson j
                           | None => VNone
                           end)].
Proof.
  intros Hresp.
  destruct (answer_query_run query retrieved_ w)
    as (resp' & lg & Hcall & _ & Hrun).
  rewrite (call_llm_result_any_world _ _ _ w
             {| agent := agent w; stdout := stdout w;
                log := log w
                       ++ [LogPromptLen
                             (Z.of_nat
                                (length (format_prompt query retrieved_)))];
                uuids := uuids w |}) in Hresp.
  rewrite Hcall in Hresp. injection Hresp as ->.
  eexists. split; [exact Hrun |]. cbn [stdout]. by eexists.
Qed.

(** With an API key, a reply that is valid JSON but not an object does not
    crash the answer stage: the answer is the labelled error
    ["[LLM error] '<type>' object has no attribute 'get'"] and
    [FINAL_RESPONSE] carries [llm_raw = None]. *)
Theorem answer_query_reply_not_an_object (query : pystr)
    (retrieved_ : list RetrievalResult) (w : World) (c : codepoint)
    (key : pystr) (data : json F) :
  GROQ_API_KEY = Some (c :: key) ->
  requests_post GROQ_API_URL (c :: key) (format_prompt query retrieved_) 512
  = HttpJson data ->
  (forall fields, data <> JObj fields) ->
  exists w' printed,
    answer_query query retrieved_ w
    = (Ok {| answer := JStr (py "[LLM error] " ++ py "'" ++ type_name data
                             ++ py "' object has no attribute 'get'");
             retrieved := retrieved_ |}, w')
    /\ stdout w' = stdout w ++ [printed]
    /\ (("llm_raw", VNone) : string * pyval) ∈ payload printed.
Proof.
  intros Hkey Hpost Hshape.
  destruct (answer_query_result query retrieved_ w
              {| llm_answer := JStr (py "[LLM error] " ++ py "'"
                                     ++ type_name data
                                     ++ py "' object has no attribute 'get'");
                 llm_raw := None |})
    as (w' & Hrun & printed & Hout & Hpayload).
  { unfold call_llm, try_backend. rewrite Hkey, Hpost.
    destruct data; try done. by destruct (Hshape fields). }
  exists w', printed. split; [exact Hrun |]. split; [done |].
  rewrite Hpayload. cbn [llm_raw]. do 3 apply list_elem_of_further.
  apply list_elem_of_here.
Qed.

(** With an API key, an object reply is read with ["output"] first, then
    ["answer"], then the empty string: a reply without either key gives an
    empty answer, not an error. The backend is asked whatever was
    retrieved, an empty list included, and [FINAL_RESPONSE] carries the
    whole reply as [llm_raw]. *)
Theorem answer_query_reply_object (query : pystr)
    (retrieved_ : list RetrievalResult) (w : World) (c : codepoint)
    (key : pystr) (fields : list (pystr * json F)) :
  GROQ_API_KEY = Some (c :: key) ->
  requests_post GROQ_API_URL (c :: key) (format_prompt query retrieved_) 512
  = HttpJson (JObj fields) ->
  exists w' printed,
    answer_query query retrieved_ w
    = (Ok {| answer :=
               match json_get (py "output") fields with
               | Some v => v
               | None =>
                   match json_get (py "answer") fields with
                   | Some v => v
                   | None => JStr []
                   end
               end;
             retrieved := retrieved_ |}, w')
    /\ stdout w' = stdout w ++ [printed]
    /\ (("llm_raw", VJson (JObj fields)) : string * pyval) ∈ payload printed.
Proof.
  intros Hkey Hpost.
  destruct (answer_query_result query retrieved_ w
              {| llm_answer :=
                   default (default (JStr []) (json_get (py "answer") fields))
                     (json_get (py "output") fields);
                 llm_raw := Some (JObj fields) |})
    as (w' & Hrun & printed & Hout & Hpayload).
  { unfold call_llm, try_backend. by rewrite Hkey, Hpost. }
  exists w', printed. split.
  { rewrite Hrun. cbn [llm_answer].
    by destruct (json_get (py "output") fields),
         (json_get (py "answer") fields). }
  split; [done |].
  rewrite Hpayload. cbn [llm_raw]. do 3 apply list_elem_of_further.
  apply list_elem_of_here.
Qed.

Lemma str_join_contains (sep part : pystr) (parts : list pystr) :
  part ∈ parts ->
  exists before after_, str_join sep parts = before ++ part ++ after_.
Proof.
  destruct parts as [| p ps]; [by intros ?%elem_of_nil |].
  intros [-> | Hin]%elem_of_cons.
  - by exists [], (flat_map (fun q => sep ++ q) ps).
  - simpl.
    assert (exists b a, flat_map (fun q => sep ++ q) ps = b ++ part ++ a)
      as (b & a & ->).
    { induction ps as [| q ps IH]; [by apply elem_of_nil in Hin |].
      apply elem_of_cons in Hin as [-> | Hin]; simpl.
      - exists sep, (flat_map (fun q => sep ++ q) ps).
        by rewrite <- app_assoc.
      - destruct (IH Hin) as (b & a & ->).
        exists ((sep ++ q) ++ b), a. by rewrite <- !app_assoc. }
    exists (p ++ b), a. by rewrite <- app_assoc.
Qed.

(** The prompt sent to the backend contains the query and the text of
    every retrieved result, verbatim. *)
Theorem format_prompt_contains (query : pystr)
    (retrieved_ : list RetrievalResult) :
  (exists before after_,
     format_prompt query retrieved_ = before ++ query ++ after_)
  /\ (forall r, r ∈ retrieved_ ->
        exists before after_,
          format_prompt query retrieved_ = before ++ text r ++ after_).
Proof.
  unfold format_prompt. split.
  - edestruct (str_join_contains newline
                 (newline ++ py "### Query:" ++ newline ++ query ++ newline))
      as (b & a & ->).
    { apply list_elem_of_further, list_elem_of_here. }
    exists (b ++ newline ++ py "### Query:" ++ newline), (newline ++ a).
    by rewrite <- !app_assoc.
  - intros r Hr. apply list_elem_of_lookup in Hr as [i Hr].
    edestruct (str_join_contains newline
                 (py "[Chunk " ++ str_int (Z.of_nat i) ++ py "] source="
                  ++ str_meta_get (meta r) "filename" ++ py " idx="
                  ++ str_meta_get (meta r) "chunk_index" ++ py " score="
                  ++ str_float (score r) ++ newline ++ text r ++ newline
                  ++ py "---" ++ newline)) as (b & a & ->).
    { apply elem_of_app. right. apply elem_of_app. left.
      apply elem_of_lookup_imap. by exists i, r. }
    eexists (b ++ py "[Chunk " ++ str_int (Z.of_nat i) ++ py "] source="
             ++ str_meta_get (meta r) "filename" ++ py " idx="
             ++ str_meta_get (meta r) "chunk_index" ++ py " score="
             ++ str_float (score r) ++ newline),
      (newline ++ py "---" ++ newline ++ a).
    by rewrite <- !app_assoc.
Qed.

End AnswerDetails.

(** ** The page ([app.py]) *)

Section PageProperties.
Context `{Ext : Externals}.

Lemma slice_from_last {A : Type} (l : list A) (n : nat) :
  (0 < n)%nat -> slice_from l (- Z.of_nat n) = drop (length l - n) l.
Proof.
  intros Hn. unfold slice_from, slice.
  rewrite (clamp_index_inside _ (Z.of_nat (length l))) by lia.
  assert (clamp_index (Z.of_nat (length l)) (- Z.of_nat n)
          = Z.of_nat (length l - n)) as ->.
  { unfold clamp_index. destruct (Z.ltb_spec (- Z.of_nat n) 0); [| lia].
    rewrite Nat2Z.inj_sub_max. lia. }
  rewrite Nat2Z.id. apply take_ge. rewrite length_drop. lia.
Qed.

Lemma rev_lookup {A : Type} (l : list A) (i : nat) :
  (i < length l)%nat -> rev l !! i = l !! (length l - S i)%nat.
Proof.
  revert i. induction l as [| x l IH]; intros i Hi; [simpl in Hi; lia |].
  simpl in *. destruct (decide (i < length l)%nat) as [Hlt | Hge].
  - rewrite lookup_app_l by (by rewrite length_rev).
    rewrite IH by done.
    by replace (length l - i)%nat with (S (length l - S i)) by lia.
  - rewrite lookup_app_r by (rewrite length_rev; lia).
    rewrite length_rev.
    replace (i - length l)%nat with 0%nat by lia.
    by replace (length l - i)%nat with 0%nat by lia.
Qed.

Lemma conversation_view_lookup (st : SessionState) (i : nat) :
  (i < Nat.min 20 (length (chat_history st)))%nat ->
  conversation_view st !! i
  = chat_history st !! (length (chat_history st) - S i)%nat.
Proof.
  intros Hi. unfold conversation_view.
  rewrite (slice_from_last _ 20) by lia.
  rewrite rev_lookup by (rewrite length_drop; lia).
  rewrite lookup_drop, length_drop. f_equal. lia.
Qed.

(** What the page lists: at most the 20 latest turns of the conversation,
    the newest first, and at most the 10 latest messages of the session's
    MCP log, in the order they were added. *)
Theorem page_lists_latest (st : SessionState) :
  length (conversation_view st) = Nat.min 20 (length (chat_history st))
  /\ (forall i : nat,
        (i < Nat.min 20 (length (chat_history st)))%nat ->
        conversation_view st !! i
        = chat_history st !! (length (chat_history st) - S i)%nat)
  /\ length (mcp_log_view st) = Nat.min 10 (length (mcp_log st))
  /\ (forall i : nat,
        mcp_log_view st !! i
        = mcp_log st !! (length (mcp_log st) - 10 + i)%nat).
Proof.
  split.
  { unfold conversation_view. rewrite (slice_from_last _ 20) by lia.
    rewrite length_rev, length_drop. lia. }
  split; [intros i; apply conversation_view_lookup |].
  unfold mcp_log_view. rewrite (slice_from_last _ 10) by lia.
  split; [rewrite length_drop; lia |].
  intros i. apply lookup_drop.
Qed.

(** One click on "Ask". Without a click, or with an empty question,
    nothing happens: no envelope, no indexing, no turn. Otherwise, on a
    well-formed agent, the pipeline runs over the saved files and the page
    writes its answer; the console receives the [USER_QUERY] envelope and
    then the envelopes of the run, one per file and three more, but the
    session's MCP log receives the [USER_QUERY] envelope only; the turn is
    appended to the conversation and is the first one listed. *)
Theorem ask_block_turn :
  (forall (button : bool) (saved_paths : list pystr) (query : pystr)
          (st : SessionState) (w : World),
     button = false \/ query = [] ->
     ask_block button saved_paths query st w = (Ok None, st, w))
  /\ (forall (saved_paths : list pystr) (query : pystr) (st : SessionState)
             (w : World),
        encode_width_ok -> agent_wf (agent w) -> query <> [] ->
        exists ans st' w' printed,
          ask_block true saved_paths query st w = (Ok (Some ans), st', w')
          /\ mcp_log st'
             = mcp_log st
               ++ [envelope_at (uuids w) "UI" "CoordinatorAgent" "USER_QUERY"
                     [("query", VStr query)]]
          /\ chat_history st' = chat_history st ++ [(query, ans)]
          /\ conversation_view st' !! 0%nat = Some (query, ans)
          /\ stdout w'
             = stdout w
               ++ envelope_at (uuids w) "UI" "CoordinatorAgent" "USER_QUERY"
                    [("query", VStr query)] :: printed
          /\ length printed = (length saved_paths + 3)%nat).
Proof.
  split.
  - intros button saved_paths query st w [-> | ->]; [done |].
    unfold ask_block. by destruct button.
  - intros saved_paths query st w Hw Hwf Hquery.
    destruct query as [| c query]; [done |].
    unfold ask_block. rewrite send_mcp_message_run.
    set (w1 := {| agent := agent w;
                  stdout := stdout w
                            ++ [envelope_at (uuids w) "UI" "CoordinatorAgent"
                                  "USER_QUERY" [("query", VStr (c :: query))]];
                  log := log w ++ [LogMcp "UI" "CoordinatorAgent" "USER_QUERY"];
                  uuids := S (uuids w) |}).
    destruct (pipeline_index_and_retrieve saved_paths (c :: query) w1 Hw Hwf)
      as (w3 & rs & Hindex & Hret & _ & Hout & _).
    destruct (pipeline_steps saved_paths (c :: query) w1 w3 rs Hindex Hret)
      as (resp & lg & _ & Hrun).
    rewrite Hrun. eexists _, _, _, _. split; [reflexivity |].
    cbn [mcp_log chat_history add_mcp_to_state answer stdout].
    split; [done |]. split; [done |]. split.
    { rewrite conversation_view_lookup;
        cbn [chat_history]; rewrite length_app; cbn [length]; [| lia].
      replace (length (chat_history st) + 1 - 1)%nat
        with (length (chat_history st)) by lia.
      by rewrite lookup_app_r, Nat.sub_diag. }
    rewrite Hout. cbn [world_before_indexing stdout]. subst w1.
    cbn [stdout uuids]. rewrite <- !app_assoc. split; [reflexivity |].
    rewrite !length_app, length_imap. simpl. lia.
Qed.

End PageProperties.

(** ** From the files to the results *)

Section Provenance.
Context `{Ext : Externals}.

Lemma accumulated_chunks_length (paths : list pystr) :
  length (accumulated_chunks paths)
  = sum_list ((fun p => length (document_chunks p p)) <$> paths).
Proof.
  unfold accumulated_chunks. induction paths as [| p paths IH]; [done |].
  simpl. by rewrite length_app, IH.
Qed.

Lemma accumulated_chunks_elem (paths : list pystr) (c : Chunk) :
  c ∈ accumulated_chunks paths ->
  exists p i, p ∈ paths /\ document_chunks p p !! i = Some c.
Proof.
  unfold accumulated_chunks. intros Hc.
  apply list_elem_of_In, in_flat_map in Hc as (p & Hp & Hc).
  apply list_elem_of_In in Hp, Hc.
  apply list_elem_of_lookup in Hc as [i Hc]. by exists p, i.
Qed.

(** The counts of a run add up: each [DOCUMENT_PARSED] envelope announces
    the number of chunks of its file, and the [BUILD_INDEX] envelope that
    follows them announces their sum. *)
Theorem build_index_counts_what_was_announced (paths : list pystr)
    (query : pystr) (w : World) :
  encode_width_ok -> agent_wf (agent w) ->
  exists resp w' docs e_build rest,
    handle_uploads_and_query paths query w = (Ok resp, w')
    /\ stdout w' = stdout w ++ docs ++ e_build :: rest
    /\ Forall2
         (fun p e =>
            type e = "DOCUMENT_PARSED"
            /\ payload e
               = [("filename", VStr p);
                  ("n_chunks",
                   VInt (Z.of_nat (length (document_chunks p p))))])
         paths docs
    /\ type e_build = "BUILD_INDEX"
    /\ payload e_build
       = [("n_chunks",
           VInt (Z.of_nat
                   (sum_list
                      ((fun p => length (document_chunks p p)) <$> paths))))].
Proof.
  intros Hw Hwf.
  destruct (pipeline_index_and_retrieve paths query w Hw Hwf)
    as (w3 & rs & Hindex & Hret & _ & Hout & _).
  destruct (pipeline_steps paths query w w3 rs Hindex Hret)
    as (resp & lg & _ & Hrun).
  rewrite Hout in Hrun. cbn [world_before_indexing stdout] in Hrun.
  eexists _, _,
    (imap (fun i p => document_parsed_envelope (uuids w + i) p p) paths),
    (build_index_envelope (uuids w + length paths)
       (accumulated_chunks paths)), [_; _].
  split; [exact Hrun |]. cbn [stdout].
  split; [by rewrite <- !app_assoc |].
  split.
  { apply Forall2_same_length_lookup. split; [by rewrite length_imap |].
    intros i p e Hp He. rewrite list_lookup_imap, Hp in He.
    by injection He as <-. }
  split; [reflexivity |].
  cbn [payload build_index_envelope envelope_at].
  by rewrite accumulated_chunks_length.
Qed.

(** Every result of a run on a fresh agent can be traced to its file: its
    text is one of the pieces cut from a file of the run, and its meta names
    that file and the position of that piece in it. *)
Theorem results_name_their_source (paths : list pystr) (query : pystr)
    (w : World) :
  encode_width_ok -> agent w = RetrievalAgent_init ->
  exists resp w',
    handle_uploads_and_query paths query w = (Ok resp, w')
    /\ forall r, r ∈ retrieved resp ->
         exists (p : pystr) (i : nat),
           p ∈ paths
           /\ chunk_pieces (document_text p p) !! i = Some (text r)
           /\ meta r !! "filename" = Some (MStr p)
           /\ meta r !! "chunk_index" = Some (MInt (Z.of_nat i)).
Proof.
  intros Hw Hinit.
  assert (agent_wf (agent w)) as Hwf.
  { rewrite Hinit. apply initial_agent_wf. }
  destruct (pipeline_index_and_retrieve paths query w Hw Hwf)
    as (w3 & rs & Hindex & Hret & Hagent & _ & _ & Hwf3 & _).
  destruct (pipeline_steps paths query w w3 rs Hindex Hret)
    as (resp & lg & _ & Hrun).
  eexists _, _. split; [exact Hrun |]. cbn [retrieved].
  destruct (retrieve_run query 5 w3 (Hw query) Hwf3) as (rs' & Hret' & Hrs).
  rewrite Hret in Hret'. injection Hret' as <-.
  intros r Hr. apply list_elem_of_lookup in Hr as [j Hr].
  destruct (Forall2_lookup_r _ _ _ _ _ Hrs Hr) as (h & _ & Hat).
  rewrite Hagent, Hinit in Hat. unfold result_at, agent_after_indexing in Hat.
  destruct (accumulated_chunks paths) as [| c0 chunks] eqn:Hchunks;
    [done |].
  cbn [agent_extended metadatas texts RetrievalAgent_init app] in Hat.
  rewrite !list_lookup_fmap in Hat.
  destruct ((c0 :: chunks) !! h.2) as [c |] eqn:Hc; [| done].
  simpl in Hat. injection Hat as <-. cbn [text meta].
  assert (c ∈ accumulated_chunks paths) as Hin.
  { rewrite Hchunks. by eapply list_elem_of_lookup_2. }
  apply accumulated_chunks_elem in Hin as (p & i & Hp & Hi).
  apply document_chunks_lookup in Hi as (Hpiece & m & Hm & Hindex' & Hname).
  exists p, i. split; [done |]. split; [done |].
  unfold chunk_get_meta. by rewrite Hm.
Qed.

End Provenance.

(** ** The further properties at work *)

Lemma handle_query_empty_index_witness :
  exists w',
    @handle_query Demo.stub_env (py "gamma") 5 (@initial_world Demo.stub_env)
    = (Ok [], w')
    /\ length (stdout w') = 1%nat.
Proof.
  eexists. split.
  - apply (@handle_query_empty_index Demo.stub_env). reflexivity.
  - reflexivity.
Defined.

Lemma build_index_rejected_batch_witness :
  exists w',
    @build_index Demo.narrow_env [Demo.alpha] (@initial_world Demo.narrow_env)
    = (Raise DimensionMismatch, w')
    /\ texts (agent w') = [].
Proof.
  destruct (@build_index_rejected_batch Demo.narrow_env [Demo.alpha]
              Demo.alpha (@initial_world Demo.narrow_env)
              (@initial_agent_wf Demo.narrow_env)
              ltac:(apply list_elem_of_here) ltac:(discriminate))
    as (w' & Hrun & Htexts & _).
  exists w'. split; [exact Hrun | exact Htexts].
Defined.

Lemma run_reports_what_it_retrieved_witness :
  exists resp w',
    @handle_uploads_and_query Demo.stub_env
      [py "notes.txt"; py "more.md"] (py "gamma")
      (@initial_world Demo.stub_env) = (Ok resp, w')
    /\ length (retrieved resp)
       = Nat.min 5
           (0 + length (@accumulated_chunks Demo.stub_env
                          [py "notes.txt"; py "more.md"])).
Proof.
  destruct (@run_reports_what_it_retrieved Demo.stub_env
              [py "notes.txt"; py "more.md"] (py "gamma")
              (@initial_world Demo.stub_env)
              DemoFacts.stub_encode_width (@initial_agent_wf Demo.stub_env))
    as (resp & w' & ? & ? & ? & ? & Hrun & _ & _ & _ & _ & _ & Hlen & _).
  exists resp, w'. split; [exact Hrun | exact Hlen].
Defined.

Lemma run_draws_one_trace_id_per_envelope_witness :
  exists resp w',
    @handle_uploads_and_query Demo.stub_env
      [py "notes.txt"; py "more.md"] (py "gamma")
      (@initial_world Demo.stub_env) = (Ok resp, w')
    /\ uuids w' = 5%nat.
Proof.
  destruct (@run_draws_one_trace_id_per_envelope Demo.stub_env
              [py "notes.txt"; py "more.md"] (py "gamma")
              (@initial_world Demo.stub_env)
              DemoFacts.stub_encode_width (@initial_agent_wf Demo.stub_env))
    as (resp & w' & ? & Hrun & _ & _ & Huu & _).
  exists resp, w'. split; [exact Hrun | exact Huu].
Defined.

Lemma runs_accumulate_witness :
  exists resp1 w1 resp2 w2,
    @handle_uploads_and_query Demo.stub_env [py "more.md"] (py "gamma")
      (@initial_world Demo.stub_env) = (Ok resp1, w1)
    /\ @handle_uploads_and_query Demo.stub_env [py "more.md"] (py "beta") w1
       = (Ok resp2, w2)
    /\ texts (agent w2)
       = [] ++ map chunk_text (@accumulated_chunks Demo.stub_env [py "more.md"])
         ++ map chunk_text (@accumulated_chunks Demo.stub_env [py "more.md"]).
Proof.
  destruct (@runs_accumulate Demo.stub_env [py "more.md"] (py "gamma")
              (py "beta") (@initial_world Demo.stub_env)
              DemoFacts.stub_encode_width (@initial_agent_wf Demo.stub_env))
    as (resp1 & w1 & resp2 & w2 & Hrun1 & Hrun2 & _ & Htexts & _).
  exists resp1, w1, resp2, w2.
  split; [exact Hrun1 |]. split; [exact Hrun2 | exact Htexts].
Defined.

(** Asking the same question over the same file twice returns its chunk
    twice. *)
Example second_run_returns_duplicates :
  (fun rw : result Response * @World Demo.stub_env =>
     match rw.1 with
     | Ok resp => Some (map text (retrieved resp))
     | Raise _ => None
     end)
    (@handle_uploads_and_query Demo.stub_env [py "more.md"] (py "gamma")
       (@handle_uploads_and_query Demo.stub_env [py "more.md"] (py "gamma")
          (@initial_world Demo.stub_env)).2)
  = Some [py "gamma"; py "gamma"].
Proof. vm_compute. reflexivity. Qed.

Lemma run_without_chunks_searches_earlier_uploads_witness :
  exists resp w',
    @handle_uploads_and_query Demo.stub_env [py "broken.txt"] (py "gamma")
      Demo.indexed_world = (Ok resp, w')
    /\ length (retrieved resp)
       = Nat.min 5 (index_size (agent Demo.indexed_world)).
Proof.
  destruct (@run_without_chunks_searches_earlier_uploads Demo.stub_env
              [py "broken.txt"] (py "gamma") Demo.indexed_world
              DemoFacts.stub_encode_width DemoFacts.indexed_world_wf eq_refl)
    as (resp & w' & Hrun & _ & Hlen & _).
  exists resp, w'. split; [exact Hrun | exact Hlen].
Defined.

Lemma run_on_empty_corpus_witness :
  exists w',
    @handle_uploads_and_query Demo.stub_env
      [py "broken.txt"; py "blank.txt"] (py "gamma")
      (@initial_world Demo.stub_env)
    = (Ok {| answer := JStr (py "(Stub Answer) No relevant context found.");
             retrieved := [] |}, w').
Proof.
  destruct (@run_on_empty_corpus Demo.stub_env
              [py "broken.txt"; py "blank.txt"] (py "gamma")
              (@initial_world Demo.stub_env) (or_introl eq_refl) eq_refl
              eq_refl) as (w' & Hrun & _).
  exists w'. exact Hrun.
Defined.

(** The theorem under an engine that finds the empty pattern in every
    text: none of the extractor's patterns is empty. *)
Lemma extract_stub_answers_preview_witness :
  @re_search RegexDemo.regex_env "" false [97; 10; 98]%N = Some [[]]
  /\ exists preview,
       @extract_stub_answers RegexDemo.regex_env [97; 10; 98]%N
       = py "(Stub Answer) " ++ preview
       /\ preview = [97; 32; 98]%N.
Proof.
  split; [reflexivity |].
  destruct (@extract_stub_answers_preview RegexDemo.regex_env
              [97; 10; 98]%N ltac:(repeat constructor))
    as (preview & Hrun & Hpreview & _).
  exists preview. split; [exact Hrun | exact Hpreview].
Defined.

Lemma call_llm_stub_reads_first_three_witness :
  (@call_llm Demo.stub_env (py "one") [] 512 (@initial_world Demo.stub_env)).1
  = (@call_llm Demo.stub_env (py "two") (take 3 []) 16
       (@initial_world Demo.stub_env)).1.
Proof.
  apply (@call_llm_stub_reads_first_three Demo.stub_env). left. reflexivity.
Defined.

Lemma answer_query_reply_not_an_object_witness :
  exists w',
    @answer_query (ReplyDemo.reply_env ReplyDemo.list_reply) (py "q") []
      (@initial_world (ReplyDemo.reply_env ReplyDemo.list_reply))
    = (Ok {| answer := JStr (py "[LLM error] " ++ py "'" ++ py "list"
                             ++ py "' object has no attribute 'get'");
             retrieved := [] |}, w').
Proof.
  destruct (@answer_query_reply_not_an_object
              (ReplyDemo.reply_env ReplyDemo.list_reply) (py "q") []
              (@initial_world (ReplyDemo.reply_env ReplyDemo.list_reply))
              103%N (py "sk") ReplyDemo.list_reply eq_refl eq_refl
              ltac:(discriminate)) as (w' & ? & Hrun & _).
  exists w'. exact Hrun.
Defined.

Lemma answer_query_reply_object_witness :
  exists w',
    @answer_query (ReplyDemo.reply_env (JObj ReplyDemo.full_reply)) (py "q") []
      (@initial_world (ReplyDemo.reply_env (JObj ReplyDemo.full_reply)))
    = (Ok {| answer := JStr (py "first"); retrieved := [] |}, w').
Proof.
  destruct (@answer_query_reply_object
              (ReplyDemo.reply_env (JObj ReplyDemo.full_reply)) (py "q") []
              (@initial_world (ReplyDemo.reply_env (JObj ReplyDemo.full_reply)))
              103%N (py "sk") ReplyDemo.full_reply eq_refl eq_refl)
    as (w' & ? & Hrun & _).
  exists w'. exact Hrun.
Defined.

(** A reply object with neither key gives the empty answer. *)
Example answer_query_bare_reply :
  (fun rw : result Response
            * @World (ReplyDemo.reply_env (JObj ReplyDemo.bare_reply)) =>
     match rw.1 with
     | Ok resp => Some (answer resp)
     | Raise _ => None
     end)
    (@answer_query (ReplyDemo.reply_env (JObj ReplyDemo.bare_reply)) (py "q")
       [] (@initial_world (ReplyDemo.reply_env (JObj ReplyDemo.bare_reply))))
  = Some (JStr []).
Proof. vm_compute. reflexivity. Qed.

Lemma ask_block_turn_witness :
  exists ans st' w',
    @ask_block Demo.stub_env true [py "more.md"] (py "gamma")
      (@session_init Demo.stub_env) (@initial_world Demo.stub_env)
    = (Ok (Some ans), st', w')
    /\ length (mcp_log st') = 1%nat.
Proof.
  destruct (proj2 (@ask_block_turn Demo.stub_env) [py "more.md"] (py "gamma")
              (@session_init Demo.stub_env) (@initial_world Demo.stub_env)
              DemoFacts.stub_encode_width (@initial_agent_wf Demo.stub_env)
              ltac:(discriminate))
    as (ans & st' & w' & ? & Hrun & Hlog & _).
  exists ans, st', w'. split; [exact Hrun |]. by rewrite Hlog.
Defined.

Lemma build_index_counts_what_was_announced_witness :
  exists resp w',
    @handle_uploads_and_query Demo.stub_env
      [py "notes.txt"; py "broken.txt"; py "more.md"] (py "gamma")
      (@initial_world Demo.stub_env) = (Ok resp, w').
Proof.
  destruct (@build_index_counts_what_was_announced Demo.stub_env
              [py "notes.txt"; py "broken.txt"; py "more.md"] (py "gamma")
              (@initial_world Demo.stub_env)
              DemoFacts.stub_encode_width (@initial_agent_wf Demo.stub_env))
    as (resp & w' & ? & ? & ? & Hrun & _).
  exists resp, w'. exact Hrun.
Defined.

Lemma results_name_their_source_witness :
  exists resp w',
    @handle_uploads_and_query Demo.stub_env
      [py "notes.txt"; py "more.md"] (py "gamma")
      (@initial_world Demo.stub_env) = (Ok resp, w').
Proof.
  destruct (@results_name_their_source Demo.stub_env
              [py "notes.txt"; py "more.md"] (py "gamma")
              (@initial_world Demo.stub_env)
              DemoFacts.stub_encode_width eq_refl)
    as (resp & w' & Hrun & _).
  exists resp, w'. exact Hrun.
Defined.
